(** * Salvage scan of the block manager (src/block/block_slvg.c)

    A shallow embedding of [__wt_block_salvage_start],
    [__wt_block_salvage_end] and [__wt_block_salvage_next], and the
    properties of the salvage pass they implement.

    Conventions of the embedding.

    - [off_t] values (file offsets and sizes) are integers of [Z].  The only
      arithmetic the code does on them is adding a [uint32_t] to an offset
      that is below the file size, and subtracting the description sector
      from a larger file size, so no wrap-around is involved; C division of
      [off_t] is [Z.quot].
    - [uint32_t] and [uint64_t] fields are integers of [Z], which the code
      only compares, except for the size found in a page header, which is
      unsigned by its type ([N]) and becomes an integer where the code
      assigns it to [size]; [%] is [Z.rem].
    - A C function returning [int] returns [Ret] for 0 and [Fail code] for a
      non-zero value; [WT_RET] is the bind of the monad [M], which keeps the
      block as it was mutated up to the failing call.
    - Functions of the repository that are called here but defined in other
      files (file I/O, the checksummed block read, the free list, the address
      cookie encoder, the buffer allocator) are the methods of the class
      [Collaborators]; every call is logged as an [event] with its arguments
      and its result, in call order. *)

From Stdlib Require Import ZArith List Lia Bool.
Import ListNotations.
Open Scope Z_scope.

Set Implicit Arguments.

(** ** Results of the external calls *)

Inductive res (A : Type) : Type :=
| Ok (a : A)
| Err (code : Z).

Arguments Ok {A} a.
Arguments Err {A} code.

(** ** Data *)

(** The fields of the page header that the salvage code reads:
    [dsk->size], [dsk->cksum], [dsk->lsn]. *)
Module Dsk.
Record WT_PAGE_DISK : Type := mk {
  lsn : Z;
  cksum : Z;
  size : N
}.
End Dsk.

Record WT_FH : Type := mkFH {
  file_size : Z
}.

(** The fields of [WT_BLOCK] used by salvage.  [freelist] stands for the
    in-memory free list kept by the block manager. *)
Record WT_BLOCK : Type := mkBlock {
  fh : WT_FH;
  allocsize : Z;
  slvg_off : Z;
  lsn : Z;
  flags : Z;
  freelist : list (Z * Z)
}.

Definition set_file_size (n : Z) (b : WT_BLOCK) : WT_BLOCK :=
  mkBlock (mkFH n) (allocsize b) (slvg_off b) (lsn b) (flags b) (freelist b).

Definition set_slvg_off (o : Z) (b : WT_BLOCK) : WT_BLOCK :=
  mkBlock (fh b) (allocsize b) o (lsn b) (flags b) (freelist b).

Definition set_lsn (l : Z) (b : WT_BLOCK) : WT_BLOCK :=
  mkBlock (fh b) (allocsize b) (slvg_off b) l (flags b) (freelist b).

Definition set_flags (f : Z) (b : WT_BLOCK) : WT_BLOCK :=
  mkBlock (fh b) (allocsize b) (slvg_off b) (lsn b) f (freelist b).

Definition set_freelist (l : list (Z * Z)) (b : WT_BLOCK) : WT_BLOCK :=
  mkBlock (fh b) (allocsize b) (slvg_off b) (lsn b) (flags b) l.

(** [F_CLR(p, mask)] is [p->flags &= ~mask]; [F_ISSET(p, mask)] is
    [p->flags & mask]. *)
Definition F_CLR (f mask : Z) : Z := Z.land f (Z.lnot mask).
Definition F_ISSET (f mask : Z) : bool := negb (Z.land f mask =? 0).

(** Constants of wt_internal.h, taken as parameters. *)
Class Constants : Type := {
  WT_BLOCK_DESC_SECTOR : Z;
  WT_BTREE_PAGE_SIZE_MAX : Z;
  WT_BLOCK_OK : Z
}.

(** ** Calls to the rest of the block manager *)

Inductive event : Type :=
| EvBufInit (size : Z) (r : res unit)
| EvRead (offset len : Z) (r : res Dsk.WT_PAGE_DISK)
| EvBlockRead (offset size cksum : Z) (r : res unit)
| EvFree (offset len : Z) (r : res unit)
| EvAddr (offset size cksum : Z) (r : res (list Z))
| EvTruncate (len : Z) (r : res unit)
| EvDescInit (r : res unit)
| EvDiscard.

(** The environment [E] is whatever the collaborators depend on and change
    (the file, the allocator); each method takes it and gives it back.
    [wt_read] gives the header found in the bytes it read into [buf->mem]. *)
Class Collaborators (E : Type) : Type := {
  wt_buf_initsize : Z -> E -> res unit * E;
  wt_read : Z -> Z -> E -> res Dsk.WT_PAGE_DISK * E;
  wt_block_read : Z -> Z -> Z -> E -> res unit * E;
  wt_block_free : Z -> Z -> E -> res unit * E;
  wt_block_addr_to_buffer : WT_BLOCK -> Z -> Z -> Z -> res (list Z);
  wt_ftruncate : Z -> E -> res unit * E;
  wt_desc_init : E -> res unit * E;
  wt_block_discard : E -> E
}.

(** ** The monad of the embedding: block, environment, log, error code *)

Inductive outcome (A : Type) : Type :=
| Ret (a : A)
| Fail (code : Z)
| OutOfFuel.

Arguments Ret {A} a.
Arguments Fail {A} code.
Arguments OutOfFuel {A}.

Record run (E A : Type) : Type := mkRun {
  out : outcome A;
  blk : WT_BLOCK;
  env : E;
  evs : list event
}.

Definition M (E A : Type) : Type := WT_BLOCK -> E -> run E A.

Definition ret {E A} (a : A) : M E A :=
  fun b e => mkRun (Ret a) b e [].

Definition bind {E A B} (m : M E A) (k : A -> M E B) : M E B :=
  fun b e =>
    let r := m b e in
    match out r with
    | Ret a =>
        let r' := k a (blk r) (env r) in
        mkRun (out r') (blk r') (env r') (evs r ++ evs r')
    | Fail c => mkRun (Fail c) (blk r) (env r) (evs r)
    | OutOfFuel => mkRun OutOfFuel (blk r) (env r) (evs r)
    end.

Declare Scope slvg_scope.
Delimit Scope slvg_scope with slvg.
Notation "x <- m ;; k" := (bind m (fun x => k))
  (at level 100, m at next level, right associativity) : slvg_scope.
Notation "m ;; k" := (bind m (fun _ => k))
  (at level 100, right associativity) : slvg_scope.

Definition get_block {E} : M E WT_BLOCK :=
  fun b e => mkRun (Ret b) b e [].

Definition modify_block {E} (f : WT_BLOCK -> WT_BLOCK) : M E unit :=
  fun b e => mkRun (Ret tt) (f b) e [].

Definition hang {E A} : M E A :=
  fun b e => mkRun OutOfFuel b e [].

(** An external call: run the collaborator on the environment, log the call
    and turn its result into the outcome ([WT_RET] then propagates it). *)
Definition call {E A} (f : E -> res A * E) (ev : res A -> event) : M E A :=
  fun b e =>
    let (r, e') := f e in
    mkRun (match r with Ok a => Ret a | Err c => Fail c end) b e' [ev r].

(** An external call whose return value is tested by the caller. *)
Definition call_test {E A} (f : E -> res A * E) (ev : res A -> event)
  : M E (res A) :=
  fun b e =>
    let (r, e') := f e in
    mkRun (Ret r) b e' [ev r].

Section Salvage.

Context {E : Type} {CO : Collaborators E} {K : Constants}.

Local Open Scope slvg_scope.

Definition __wt_buf_initsize (size : Z) : M E unit :=
  call (wt_buf_initsize size) (EvBufInit size).

Definition __wt_read (offset len : Z) : M E Dsk.WT_PAGE_DISK :=
  call (wt_read offset len) (EvRead offset len).

Definition __wt_block_read (offset size cksum : Z) : M E (res unit) :=
  call_test (wt_block_read offset size cksum) (EvBlockRead offset size cksum).

Definition __wt_desc_init : M E unit :=
  call wt_desc_init EvDescInit.

Definition __wt_block_addr_to_buffer (offset size cksum : Z)
  : M E (list Z) :=
  b <- get_block ;;
  call (fun e => (wt_block_addr_to_buffer b offset size cksum, e))
       (EvAddr offset size cksum).

(** Modelled from the spec: [__wt_ftruncate] is defined outside
    block_slvg.c; "truncate(file, new_length) -> () | IOError", with
    [file_size] "refreshed by Start after truncation": on success the
    handle's size is the new length. *)
Definition __wt_ftruncate (len : Z) : M E unit :=
  call (wt_ftruncate len) (EvTruncate len) ;;
  modify_block (set_file_size len).

(** Modelled from the spec: [__wt_block_free] is defined outside
    block_slvg.c; "mark the single allocation unit at offset as free",
    "mark_region_free(store,
    offset, length) -> () | IOError": on success the region joins the
    in-memory free list. *)
Definition __wt_block_free (offset len : Z) : M E unit :=
  call (wt_block_free offset len) (EvFree offset len) ;;
  modify_block (fun b => set_freelist (freelist b ++ [(offset, len)]) b).

(** Modelled from the spec: [__wt_block_discard] is defined outside
    block_slvg.c;
    "discard all in-memory free-space/accounting state accumulated during
    the scan", "discard_store_state(store) -> ()". *)
Definition __wt_block_discard : M E unit :=
  fun b e => mkRun (Ret tt) (set_freelist [] b) (wt_block_discard e) [EvDiscard].

(** *** __wt_block_salvage_start *)

Definition __wt_block_salvage_start : M E unit :=
  b <- get_block ;;
  (if file_size (fh b) >? WT_BLOCK_DESC_SECTOR then
     let allocsize := allocsize b in
     let len := file_size (fh b) - WT_BLOCK_DESC_SECTOR in
     let len := Z.quot len allocsize * allocsize in
     let len := len + WT_BLOCK_DESC_SECTOR in
     if negb (len =? file_size (fh b)) then __wt_ftruncate len else ret tt
   else ret tt) ;;
  __wt_desc_init ;;
  modify_block (set_slvg_off WT_BLOCK_DESC_SECTOR) ;;
  ret tt.

(** *** __wt_block_salvage_end *)

Definition __wt_block_salvage_end (success : Z) : M E unit :=
  (if success =? 0 then
     modify_block (fun b => set_flags (F_CLR (flags b) WT_BLOCK_OK) b) ;;
     __wt_block_discard
   else ret tt) ;;
  ret tt.

(** *** __wt_block_salvage_next *)

(** The test of lines 107-110 that sends the header to [skip]. *)
Definition size_insane (size allocsize offset max : Z) : bool :=
  (size =? 0) ||
  negb (Z.rem size allocsize =? 0) ||
  (size >? WT_BTREE_PAGE_SIZE_MAX) ||
  (offset + size >? max).

(** How one turn of the [for (;;)] loop ends. *)
Inductive ctl : Type :=
| Continue (offset : Z)
| Break (offset size cksum : Z)
| ReturnEof.

(** The code at label [skip]. *)
Definition skip (offset allocsize : Z) : M E ctl :=
  __wt_block_free offset allocsize ;;
  modify_block (set_slvg_off (offset + allocsize)) ;;
  ret (Continue (offset + allocsize)).

(** One turn of the loop. *)
Definition scan_body (max allocsize offset : Z) : M E ctl :=
  if offset >=? max then ret ReturnEof
  else
    dsk <- __wt_read offset allocsize ;;
    let size := Z.of_N (Dsk.size dsk) in
    let cksum := Dsk.cksum dsk in
    if size_insane size allocsize offset max then skip offset allocsize
    else
      b <- get_block ;;
      (if lsn b <? Dsk.lsn dsk
       then modify_block (set_lsn (Dsk.lsn dsk)) else ret tt) ;;
      r <- __wt_block_read offset size cksum ;;
      match r with
      | Err _ => skip offset allocsize
      | Ok _ => ret (Break offset size cksum)
      end.

(** The loop; it leaves with [ReturnEof] or [Break]. *)
Fixpoint salvage_scan (fuel : nat) (max allocsize offset : Z) : M E ctl :=
  match fuel with
  | O => hang
  | S fuel' =>
      c <- scan_body max allocsize offset ;;
      match c with
      | Continue offset' => salvage_scan fuel' max allocsize offset'
      | _ => ret c
      end
  end.

(** What the caller gets on a 0 return: [*eofp = 1], or the address cookie
    written to [addr] (its length is [*addr_sizep]). *)
Inductive salvage_out : Type :=
| Eof
| Page (addr : list Z).

Definition scan_fuel (max offset : Z) : nat := S (Z.to_nat (max - offset)).

Definition __wt_block_salvage_next : M E salvage_out :=
  b <- get_block ;;
  let offset := slvg_off b in
  let fh := fh b in
  let allocsize := allocsize b in
  __wt_buf_initsize allocsize ;;
  let max := file_size fh in
  c <- salvage_scan (scan_fuel max offset) max allocsize offset ;;
  match c with
  | Break offset size cksum =>
      addr <- __wt_block_addr_to_buffer offset size cksum ;;
      modify_block (set_slvg_off (offset + size)) ;;
      ret (Page addr)
  | _ => ret Eof
  end.

End Salvage.

(** ** The caller: a sequence of calls of [__wt_block_salvage_next] *)

Record calls (E : Type) : Type := mkCalls {
  outs : list (outcome salvage_out);
  cblk : WT_BLOCK;
  cenv : E;
  cevs : list event
}.

(** [n] calls in a row, whatever each of them returns. *)
Fixpoint salvage_calls {E} {CO : Collaborators E} {K : Constants}
  (n : nat) (b : WT_BLOCK) (e : E) : calls E :=
  match n with
  | O => mkCalls [] b e []
  | S n' =>
      let r := __wt_block_salvage_next b e in
      let p := salvage_calls n' (blk r) (env r) in
      mkCalls (out r :: outs p) (cblk p) (cenv p) (evs r ++ cevs p)
  end.

(** ** Reading the log *)

(** A region of the file that the scan has classified: a page handed to the
    caller (its cookie was encoded) or an allocation unit put on the free
    list. *)
Inductive region : Type :=
| Valid (offset size : Z)
| Garbage (offset len : Z).

Definition r_off (r : region) : Z :=
  match r with Valid o _ => o | Garbage o _ => o end.

Definition r_len (r : region) : Z :=
  match r with Valid _ n => n | Garbage _ n => n end.

Definition classified_by (ev : event) : list region :=
  match ev with
  | EvFree o len (Ok _) => [Garbage o len]
  | EvAddr o size _ (Ok _) => [Valid o size]
  | _ => []
  end.

Definition classified (l : list event) : list region :=
  flat_map classified_by l.

Definition covers (x : Z) (r : region) : bool :=
  (r_off r <=? x) && (x <? r_off r + r_len r).

Definition count_cover (x : Z) (rs : list region) : nat :=
  length (filter (covers x) rs).

Definition disjoint (r1 r2 : region) : Prop :=
  r_off r1 + r_len r1 <= r_off r2 \/ r_off r2 + r_len r2 <= r_off r1.

(** The regions, in the order they were classified, follow one another
    from [lo] to [hi] and none is empty. *)
Fixpoint chain (lo : Z) (rs : list region) (hi : Z) : Prop :=
  match rs with
  | [] => lo = hi
  | r :: rs' => r_off r = lo /\ 0 < r_len r /\ chain (lo + r_len r) rs' hi
  end.

(** Every offset of [lo, hi) is in exactly one region, the others in none. *)
Definition tiles (rs : list region) (lo hi : Z) : Prop :=
  forall x, count_cover x rs = if (lo <=? x) && (x <? hi) then 1%nat else 0%nat.

(** An I/O call that failed: its offset and its error code. *)
Definition io_failure (ev : event) : option (Z * Z) :=
  match ev with
  | EvRead o _ (Err c) => Some (o, c)
  | EvFree o _ (Err c) => Some (o, c)
  | _ => None
  end.

Definition is_io (ev : event) : bool :=
  match ev with
  | EvRead _ _ _ | EvBlockRead _ _ _ _ | EvFree _ _ _
  | EvTruncate _ _ | EvDescInit _ => true
  | _ => false
  end.

Definition is_truncate (ev : event) : bool :=
  match ev with EvTruncate _ _ => true | _ => false end.

(** The error code of a failed call whose result next hands to [WT_RET]:
    buffer set-up, header read, free and cookie encoding.  The result of
    the verified read is only tested (line 135). *)
Definition propagated_error (ev : event) : option Z :=
  match ev with
  | EvBufInit _ (Err c) => Some c
  | EvRead _ _ (Err c) => Some c
  | EvFree _ _ (Err c) => Some c
  | EvAddr _ _ _ (Err c) => Some c
  | _ => None
  end.

Definition is_read (ev : event) : bool :=
  match ev with EvRead _ _ _ => true | _ => false end.

(** The number of header reads in a log. *)
Definition reads (l : list event) : nat := length (filter is_read l).

(** A call that a scan started at [lo] may make on a file of size [hi]
    with allocation size [A]: a header read or a free of one allocation
    unit that starts in [lo, hi), or a verified read or a cookie for a
    non-empty page that starts at [lo] or later and ends in the file. *)
Definition call_in_file (A lo hi : Z) (ev : event) : Prop :=
  match ev with
  | EvBufInit size _ => size = A
  | EvRead o len _ => len = A /\ lo <= o < hi
  | EvFree o len _ => len = A /\ lo <= o < hi
  | EvBlockRead o size _ _ => lo <= o /\ 0 < size /\ o + size <= hi
  | EvAddr o size _ _ => lo <= o /\ 0 < size /\ o + size <= hi
  | EvTruncate _ _ | EvDescInit _ | EvDiscard => False
  end.

Definition is_block_read (ev : event) : bool :=
  match ev with EvBlockRead _ _ _ _ => true | _ => false end.

(** The sequence numbers of the headers that passed the size test, in a log
    of calls made with allocation size [A] on a file of size [max]. *)
Definition sane_lsn {K : Constants} (A max : Z) (ev : event) : list Z :=
  match ev with
  | EvRead o _ (Ok dsk) =>
      if size_insane (Z.of_N (Dsk.size dsk)) A o max then [] else [Dsk.lsn dsk]
  | _ => []
  end.

Definition sane_lsns {K : Constants} (A max : Z) (l : list event) : list Z :=
  flat_map (sane_lsn A max) l.

(** The sequence numbers of the pages whose verified read succeeded: the
    header read just before a successful [__wt_block_read]. *)
Fixpoint valid_lsns (l : list event) : list Z :=
  match l with
  | [] => []
  | EvRead _ _ (Ok dsk) :: (EvBlockRead _ _ _ (Ok _) :: _) as rest =>
      Dsk.lsn dsk :: valid_lsns rest
  | _ :: rest => valid_lsns rest
  end.

Definition max_list (d : Z) (l : list Z) : Z := fold_left Z.max l d.

(** The largest sequence number among the pages whose verified read
    succeeded, or [pre] when there is none. *)
Definition valid_watermark (pre : Z) (l : list event) : Z :=
  match valid_lsns l with
  | [] => pre
  | x :: xs => max_list x xs
  end.

(** ** A file on which the code can be run *)

Module Sim.

Record disk : Type := mkDisk {
  headers : list (Z * Dsk.WT_PAGE_DISK);
  verified : list Z;
  read_errors : list Z;
  free_errors : list Z
}.

Definition mem (x : Z) (l : list Z) : bool := existsb (Z.eqb x) l.

Definition header_at (o : Z) (d : disk) : Dsk.WT_PAGE_DISK :=
  match find (fun p => fst p =? o) (headers d) with
  | Some p => snd p
  | None => Dsk.mk 0 0 0
  end.

Definition EIO : Z := 5.
Definition WT_ERROR : Z := -31802.

Definition collaborators : Collaborators disk := {|
  wt_buf_initsize := fun _ d => (Ok tt, d);
  wt_read := fun o _ d =>
    if mem o (read_errors d) then (Err EIO, d) else (Ok (header_at o d), d);
  wt_block_read := fun o _ ck d =>
    if mem o (verified d) && (Dsk.cksum (header_at o d) =? ck)
    then (Ok tt, d) else (Err WT_ERROR, d);
  wt_block_free := fun o _ d =>
    if mem o (free_errors d) then (Err EIO, d) else (Ok tt, d);
  wt_block_addr_to_buffer := fun b o size ck =>
    Ok [Z.quot o (allocsize b); Z.quot size (allocsize b); ck];
  wt_ftruncate := fun _ d => (Ok tt, d);
  wt_desc_init := fun d => (Ok tt, d);
  wt_block_discard := fun d => d
|}.

Definition constants : Constants := {|
  WT_BLOCK_DESC_SECTOR := 512;
  WT_BTREE_PAGE_SIZE_MAX := 512 * 1048576;
  WT_BLOCK_OK := 1
|}.

Definition block (size A : Z) (l : Z) : WT_BLOCK :=
  mkBlock (mkFH size) A 0 l 1 [].

(** The file of the example scenario: a page at 512 (1024 bytes, sequence
    number 7), a unit at 1536 whose checksum is wrong, a page at 2048
    (512 bytes, sequence number 12). *)
Definition scenario (garbage_lsn : Z) : disk :=
  mkDisk [(512, Dsk.mk 7 101 1024%N); (1536, Dsk.mk garbage_lsn 102 512%N);
          (2048, Dsk.mk 12 103 512%N)]
         [512; 2048] [] [].

Definition start : M disk unit :=
  @__wt_block_salvage_start disk collaborators constants.

Definition next : M disk salvage_out :=
  @__wt_block_salvage_next disk collaborators constants.

Definition finish_pass (success : Z) : M disk unit :=
  @__wt_block_salvage_end disk collaborators constants success.

Definition probe (max A o : Z) : M disk ctl :=
  @scan_body disk collaborators constants max A o.

(** Start, then [n] calls of next. *)
Definition pass (n : nat) (b : WT_BLOCK) (d : disk) : calls disk :=
  let r := start b d in
  @salvage_calls _ collaborators constants n (blk r) (env r).

(** The scenario file with 40 bytes of trailing garbage, opened with
    sequence number 0; the garbage unit carries sequence number 3. *)
Definition block1 : WT_BLOCK := block 2600 512 0.
Definition file1 : disk := scenario 3.

(** The same file where the unit with the wrong checksum carries sequence
    number 50. *)
Definition block2 : WT_BLOCK := block 2560 512 0.
Definition file2 : disk := scenario 50.

(** The scenario file opened with sequence number 100. *)
Definition block3 : WT_BLOCK := block 2560 512 100.

(** A file of one allocation unit after the description sector, the unit
    being zeroes, with the cursor on that unit. *)
Definition block4 : WT_BLOCK := mkBlock (mkFH 1024) 512 512 0 1 [].
Definition file4 : disk := mkDisk [] [] [] [].

(** The scenario file with the cursor past the first page, where the read
    at 1536 fails. *)
Definition block5 : WT_BLOCK := mkBlock (mkFH 2560) 512 1536 7 1 [].
Definition file5 : disk :=
  mkDisk (headers file1) (verified file1) [1536] [].


(** A file shorter than the description sector. *)
Definition block6 : WT_BLOCK := block 100 512 0.

(** Collaborators for a file that cannot be truncated. *)
Definition collaborators_no_truncate : Collaborators disk := {|
  wt_buf_initsize := @wt_buf_initsize _ collaborators;
  wt_read := @wt_read _ collaborators;
  wt_block_read := @wt_block_read _ collaborators;
  wt_block_free := @wt_block_free _ collaborators;
  wt_block_addr_to_buffer := @wt_block_addr_to_buffer _ collaborators;
  wt_ftruncate := fun _ d => (Err EIO, d);
  wt_desc_init := @wt_desc_init _ collaborators;
  wt_block_discard := @wt_block_discard _ collaborators
|}.

Definition start_no_truncate : M disk unit :=
  @__wt_block_salvage_start disk collaborators_no_truncate constants.

Definition scan (fuel : nat) (max A o : Z) : M disk ctl :=
  @salvage_scan disk collaborators constants fuel max A o.

(** [block4] with an allocation size of 0. *)
Definition block7 : WT_BLOCK := mkBlock (mkFH 1024) 0 512 0 1 [].

(** The header of the unit at 1536 in [file1]. *)
Definition dsk1536 : Dsk.WT_PAGE_DISK := Dsk.mk 3 102 512%N.

End Sim.

(** ** The loop as a relation

    What one turn of the loop does, case by case, and what the loop does as
    a sequence of turns; the functions above are shown to satisfy these
    relations, and the properties of the scan are proved by induction on
    them. *)

Section Relations.

Context {E : Type} {CO : Collaborators E} {K : Constants}.

(** Lines 27-29: the length the file is cut to. *)
Definition start_len (b : WT_BLOCK) : Z :=
  Z.quot (file_size (fh b) - WT_BLOCK_DESC_SECTOR) (allocsize b) * allocsize b
  + WT_BLOCK_DESC_SECTOR.

(** Lines 126-127. *)
Definition bump_lsn (dsk : Dsk.WT_PAGE_DISK) (b : WT_BLOCK) : WT_BLOCK :=
  if lsn b <? Dsk.lsn dsk then set_lsn (Dsk.lsn dsk) b else b.

(** Line 146 after a successful [__wt_block_free]. *)
Definition skipped (o A : Z) (b : WT_BLOCK) : WT_BLOCK :=
  set_slvg_off (o + A) (set_freelist (freelist b ++ [(o, A)]) b).

(** The two ways to reach [skip] with the header [dsk] read at [o]. *)
Inductive garbage_probe (max A o : Z) (b : WT_BLOCK) (e : E)
  (dsk : Dsk.WT_PAGE_DISK) : WT_BLOCK -> E -> list event -> Prop :=
| ProbeInsane e1 :
    wt_read o A e = (Ok dsk, e1) ->
    size_insane (Z.of_N (Dsk.size dsk)) A o max = true ->
    garbage_probe max A o b e dsk b e1 [EvRead o A (Ok dsk)]
| ProbeUnverified e1 c e2 :
    wt_read o A e = (Ok dsk, e1) ->
    size_insane (Z.of_N (Dsk.size dsk)) A o max = false ->
    wt_block_read o (Z.of_N (Dsk.size dsk)) (Dsk.cksum dsk) e1 = (Err c, e2) ->
    garbage_probe max A o b e dsk (bump_lsn dsk b) e2
      [EvRead o A (Ok dsk);
       EvBlockRead o (Z.of_N (Dsk.size dsk)) (Dsk.cksum dsk) (Err c)].

Inductive body_spec (max A o : Z) (b : WT_BLOCK) (e : E)
  : run E ctl -> Prop :=
| BodyEof :
    max <= o ->
    body_spec max A o b e (mkRun (Ret ReturnEof) b e [])
| BodyReadErr c e1 :
    o < max ->
    wt_read o A e = (Err c, e1) ->
    body_spec max A o b e (mkRun (Fail c) b e1 [EvRead o A (Err c)])
| BodyFreeErr dsk b1 e1 l c e2 :
    o < max ->
    garbage_probe max A o b e dsk b1 e1 l ->
    wt_block_free o A e1 = (Err c, e2) ->
    body_spec max A o b e (mkRun (Fail c) b1 e2 (l ++ [EvFree o A (Err c)]))
| BodySkip dsk b1 e1 l e2 :
    o < max ->
    garbage_probe max A o b e dsk b1 e1 l ->
    wt_block_free o A e1 = (Ok tt, e2) ->
    body_spec max A o b e
      (mkRun (Ret (Continue (o + A))) (skipped o A b1) e2
             (l ++ [EvFree o A (Ok tt)]))
| BodyValid dsk e1 e2 :
    o < max ->
    wt_read o A e = (Ok dsk, e1) ->
    size_insane (Z.of_N (Dsk.size dsk)) A o max = false ->
    wt_block_read o (Z.of_N (Dsk.size dsk)) (Dsk.cksum dsk) e1 = (Ok tt, e2) ->
    body_spec max A o b e
      (mkRun (Ret (Break o (Z.of_N (Dsk.size dsk)) (Dsk.cksum dsk))) (bump_lsn dsk b) e2
             [EvRead o A (Ok dsk);
              EvBlockRead o (Z.of_N (Dsk.size dsk)) (Dsk.cksum dsk) (Ok tt)]).

Inductive scan_spec (max A : Z) : Z -> WT_BLOCK -> E -> run E ctl -> Prop :=
| ScanLast o b e r :
    body_spec max A o b e r ->
    (forall o', out r <> Ret (Continue o')) ->
    scan_spec max A o b e r
| ScanSkip o b e r1 o' r2 :
    body_spec max A o b e r1 ->
    out r1 = Ret (Continue o') ->
    scan_spec max A o' (blk r1) (env r1) r2 ->
    scan_spec max A o b e
      (mkRun (out r2) (blk r2) (env r2) (evs r1 ++ evs r2)).

(** The calls of a turn that ends at line 147 ([continue]). *)
Definition skip_event (A : Z) (ev : event) : bool :=
  match ev with
  | EvRead _ len (Ok _) => len =? A
  | EvBlockRead _ _ _ (Err _) => true
  | EvFree _ len (Ok _) => len =? A
  | _ => false
  end.

Definition unit_garbage (A : Z) (rg : region) : Prop :=
  exists o, rg = Garbage o A.

Definition region_pair (rg : region) : Z * Z := (r_off rg, r_len rg).

(** What the turns that end with [continue] have done when the loop comes
    to offset [o1] with block [b1], having started at [o] with block [b]
    and logged [l]. *)
Record skip_prefix (max A o : Z) (b : WT_BLOCK) (l : list event)
  (o1 : Z) (b1 : WT_BLOCK) : Prop := {
  sp_chain : chain o (classified l) o1;
  sp_units : Forall (unit_garbage A) (classified l);
  sp_events : forallb (skip_event A) l = true;
  sp_cursor : slvg_off b = o -> slvg_off b1 = o1;
  sp_fh : fh b1 = fh b;
  sp_allocsize : allocsize b1 = allocsize b;
  sp_flags : flags b1 = flags b;
  sp_lsn : lsn b1 = max_list (lsn b) (sane_lsns A max l);
  sp_freelist :
    freelist b1 = freelist b ++ map region_pair (classified l);
  sp_step : (A | o1 - o);
  sp_below : l = [] /\ o1 = o /\ b1 = b \/ o < max /\ o1 - A < max
}.



(** Lines 154-162, after the loop was left with [r]. *)
Definition finish (r : run E ctl) : run E salvage_out :=
  match out r with
  | Ret (Break o size ck) =>
      match wt_block_addr_to_buffer (blk r) o size ck with
      | Ok a =>
          mkRun (Ret (Page a)) (set_slvg_off (o + size) (blk r)) (env r)
                (evs r ++ [EvAddr o size ck (Ok a)])
      | Err c =>
          mkRun (Fail c) (blk r) (env r) (evs r ++ [EvAddr o size ck (Err c)])
      end
  | Ret _ => mkRun (Ret Eof) (blk r) (env r) (evs r)
  | Fail c => mkRun (Fail c) (blk r) (env r) (evs r)
  | OutOfFuel => mkRun OutOfFuel (blk r) (env r) (evs r)
  end.

Definition logged_after (A : Type) (ev : event) (r : run E A) : run E A :=
  mkRun (out r) (blk r) (env r) (ev :: evs r).

Inductive next_spec (b : WT_BLOCK) (e : E) : run E salvage_out -> Prop :=
| NextBufErr c e1 :
    wt_buf_initsize (allocsize b) e = (Err c, e1) ->
    next_spec b e (mkRun (Fail c) b e1 [EvBufInit (allocsize b) (Err c)])
| NextScanned e1 r :
    wt_buf_initsize (allocsize b) e = (Ok tt, e1) ->
    scan_spec (file_size (fh b)) (allocsize b) (slvg_off b) b e1 r ->
    next_spec b e
      (logged_after (EvBufInit (allocsize b) (Ok tt)) (finish r)).

(** The six ways a call of [__wt_block_salvage_next] ends, each with the
    block it leaves and the calls it made. *)
Inductive next_cases (b : WT_BLOCK) (e : E) : run E salvage_out -> Prop :=
| NcBufErr c e1 :
    wt_buf_initsize (allocsize b) e = (Err c, e1) ->
    next_cases b e (mkRun (Fail c) b e1 [EvBufInit (allocsize b) (Err c)])
| NcEof l o1 b1 e2 :
    skip_prefix (file_size (fh b)) (allocsize b) (slvg_off b) b l o1 b1 ->
    file_size (fh b) <= o1 ->
    next_cases b e
      (mkRun (Ret Eof) b1 e2 (EvBufInit (allocsize b) (Ok tt) :: l))
| NcReadErr l o1 b1 e2 c :
    skip_prefix (file_size (fh b)) (allocsize b) (slvg_off b) b l o1 b1 ->
    o1 < file_size (fh b) ->
    next_cases b e
      (mkRun (Fail c) b1 e2
         (EvBufInit (allocsize b) (Ok tt)
            :: l ++ [EvRead o1 (allocsize b) (Err c)]))
| NcFreeErr l o1 b1 e1 dsk b2 e2 l2 e3 c :
    skip_prefix (file_size (fh b)) (allocsize b) (slvg_off b) b l o1 b1 ->
    o1 < file_size (fh b) ->
    garbage_probe (file_size (fh b)) (allocsize b) o1 b1 e1 dsk b2 e2 l2 ->
    next_cases b e
      (mkRun (Fail c) b2 e3
         (EvBufInit (allocsize b) (Ok tt)
            :: l ++ l2 ++ [EvFree o1 (allocsize b) (Err c)]))
| NcPage l o1 b1 dsk e2 a :
    skip_prefix (file_size (fh b)) (allocsize b) (slvg_off b) b l o1 b1 ->
    o1 < file_size (fh b) ->
    size_insane (Z.of_N (Dsk.size dsk)) (allocsize b) o1 (file_size (fh b))
      = false ->
    wt_block_addr_to_buffer (bump_lsn dsk b1) o1
      (Z.of_N (Dsk.size dsk)) (Dsk.cksum dsk) = Ok a ->
    next_cases b e
      (mkRun (Ret (Page a))
         (set_slvg_off (o1 + Z.of_N (Dsk.size dsk)) (bump_lsn dsk b1)) e2
         (EvBufInit (allocsize b) (Ok tt)
            :: l ++ [EvRead o1 (allocsize b) (Ok dsk);
                     EvBlockRead o1 (Z.of_N (Dsk.size dsk)) (Dsk.cksum dsk)
                       (Ok tt);
                     EvAddr o1 (Z.of_N (Dsk.size dsk)) (Dsk.cksum dsk)
                       (Ok a)]))
| NcAddrErr l o1 b1 dsk e2 c :
    skip_prefix (file_size (fh b)) (allocsize b) (slvg_off b) b l o1 b1 ->
    o1 < file_size (fh b) ->
    size_insane (Z.of_N (Dsk.size dsk)) (allocsize b) o1 (file_size (fh b))
      = false ->
    wt_block_addr_to_buffer (bump_lsn dsk b1) o1
      (Z.of_N (Dsk.size dsk)) (Dsk.cksum dsk) = Err c ->
    next_cases b e
      (mkRun (Fail c) (bump_lsn dsk b1) e2
         (EvBufInit (allocsize b) (Ok tt)
            :: l ++ [EvRead o1 (allocsize b) (Ok dsk);
                     EvBlockRead o1 (Z.of_N (Dsk.size dsk)) (Dsk.cksum dsk)
                       (Ok tt);
                     EvAddr o1 (Z.of_N (Dsk.size dsk)) (Dsk.cksum dsk)
                       (Err c)])).

End Relations.

(** * Properties *)

Section Properties.

Context {E : Type} {CO : Collaborators E} {K : Constants}.

Ltac unit_res :=
  repeat match goal with
         | u : unit |- _ => destruct u
         end.

(** *** Running the monad *)

Lemma bind_ret_run (A B : Type) (m : M E A) (k : A -> M E B) b e a b1 e1 l :
  m b e = mkRun (Ret a) b1 e1 l ->
  bind m k b e =
  mkRun (out (k a b1 e1)) (blk (k a b1 e1)) (env (k a b1 e1))
        (l ++ evs (k a b1 e1)).
Proof. intros H. unfold bind. rewrite H. reflexivity. Qed.

Lemma bind_fail_run (A B : Type) (m : M E A) (k : A -> M E B) b e c b1 e1 l :
  m b e = mkRun (Fail c) b1 e1 l ->
  bind m k b e = mkRun (Fail c) b1 e1 l.
Proof. intros H. unfold bind. rewrite H. reflexivity. Qed.

Lemma call_ok (A : Type) (f : E -> res A * E) ev b e a e1 :
  f e = (Ok a, e1) -> call f ev b e = mkRun (Ret a) b e1 [ev (Ok a)].
Proof. intros H. unfold call. rewrite H. reflexivity. Qed.

Lemma call_err (A : Type) (f : E -> res A * E) ev b e c e1 :
  f e = (Err c, e1) -> call f ev b e = mkRun (Fail c) b e1 [ev (Err c)].
Proof. intros H. unfold call. rewrite H. reflexivity. Qed.

Lemma call_test_run (A : Type) (f : E -> res A * E) ev b e r e1 :
  f e = (r, e1) -> call_test f ev b e = mkRun (Ret r) b e1 [ev r].
Proof. intros H. unfold call_test. rewrite H. reflexivity. Qed.

Lemma run_eta (A : Type) (r : run E A) :
  mkRun (out r) (blk r) (env r) (evs r) = r.
Proof. destruct r; reflexivity. Qed.

Lemma skip_ok o A b e e2 :
  wt_block_free o A e = (Ok tt, e2) ->
  skip o A b e =
  mkRun (Ret (Continue (o + A))) (skipped o A b) e2 [EvFree o A (Ok tt)].
Proof.
  intros H. unfold skip, __wt_block_free.
  erewrite bind_ret_run.
  2: { erewrite bind_ret_run by (apply call_ok; exact H). reflexivity. }
  reflexivity.
Qed.

Lemma skip_err o A b e c e2 :
  wt_block_free o A e = (Err c, e2) ->
  skip o A b e = mkRun (Fail c) b e2 [EvFree o A (Err c)].
Proof.
  intros H. unfold skip, __wt_block_free.
  apply bind_fail_run. apply bind_fail_run. now apply call_err.
Qed.

Lemma bump_lsn_run (dsk : Dsk.WT_PAGE_DISK) b e :
  (if lsn b <? Dsk.lsn dsk
   then modify_block (set_lsn (Dsk.lsn dsk)) else ret tt) b e =
  mkRun (E := E) (Ret tt) (bump_lsn dsk b) e [].
Proof. unfold bump_lsn. destruct (lsn b <? Dsk.lsn dsk); reflexivity. Qed.

(** *** One turn of the loop *)

Lemma scan_body_spec (max A o : Z) (b : WT_BLOCK) (e : E) :
  body_spec max A o b e (scan_body max A o b e).
Proof.
  unfold scan_body.
  destruct (o >=? max) eqn:Hge; [apply BodyEof; lia |].
  assert (Hlt : o < max) by lia.
  destruct (wt_read o A e) as [[dsk | c] e1] eqn:Hrd.
  2: { erewrite bind_fail_run by (apply call_err; exact Hrd).
       now apply BodyReadErr. }
  erewrite bind_ret_run by (apply call_ok; exact Hrd).
  destruct (size_insane (Z.of_N (Dsk.size dsk)) A o max) eqn:Hins; cbv beta iota.
  - destruct (wt_block_free o A e1) as [[[] | c] e2] eqn:Hfr.
    + erewrite skip_ok by exact Hfr. cbn [out blk env evs].
      eapply (BodySkip (l := [_])); eauto. now apply ProbeInsane.
    + erewrite skip_err by exact Hfr. cbn [out blk env evs].
      eapply (BodyFreeErr (l := [_])); eauto. now apply ProbeInsane.
  - erewrite bind_ret_run by reflexivity.
    erewrite bind_ret_run by apply bump_lsn_run.
    destruct (wt_block_read o (Z.of_N (Dsk.size dsk)) (Dsk.cksum dsk) e1)
      as [[[] | c] e2] eqn:Hbr.
    + erewrite bind_ret_run by (apply call_test_run; exact Hbr).
      cbn [out blk env evs app ret]. eapply BodyValid; eauto.
    + erewrite bind_ret_run by (apply call_test_run; exact Hbr).
      cbv beta iota.
      destruct (wt_block_free o A e2) as [[[] | c'] e3] eqn:Hfr.
      * erewrite skip_ok by exact Hfr. cbn [out blk env evs app].
        eapply (BodySkip (l := [_; _])); eauto. eapply ProbeUnverified; eauto.
      * erewrite skip_err by exact Hfr. cbn [out blk env evs app].
        eapply (BodyFreeErr (l := [_; _])); eauto. eapply ProbeUnverified; eauto.
Qed.

(** *** The loop *)

Lemma body_continue max A o b e (r : run E ctl) o' :
  body_spec max A o b e r -> out r = Ret (Continue o') ->
  o' = o + A /\ o < max.
Proof.
  inversion 1; subst; cbn [out]; intros Ho; try discriminate.
  injection Ho as <-. split; [reflexivity | assumption].
Qed.

Lemma body_no_hang max A o b e (r : run E ctl) :
  body_spec max A o b e r -> out r <> OutOfFuel.
Proof. inversion 1; subst; cbn [out]; discriminate. Qed.

(** With a positive allocation size the fuel given by [scan_fuel] is
    enough: the loop function computes a run of the loop relation. *)
Lemma salvage_scan_spec max A :
  0 < A ->
  forall fuel o b e,
    (Z.to_nat (max - o) < fuel)%nat ->
    scan_spec max A o b e (salvage_scan fuel max A o b e).
Proof.
  intros HA. induction fuel as [| fuel IH]; intros o b e Hf; [lia |].
  cbn [salvage_scan].
  pose proof (scan_body_spec max A o b e) as Hb.
  pose proof (body_no_hang Hb) as Hh.
  destruct (scan_body max A o b e) as [ob bb eb lb] eqn:Hr.
  destruct ob as [c | c |]; [| | now elim Hh].
  - erewrite bind_ret_run by exact Hr.
    destruct c as [o' | o' sz ck |]; cbv beta iota.
    + destruct (body_continue Hb eq_refl) as [-> Hlt].
      assert (Hf' : (Z.to_nat (max - (o + A)) < fuel)%nat) by lia.
      exact (ScanSkip Hb eq_refl (IH (o + A) bb eb Hf')).
    + cbn [ret out blk env evs]. rewrite app_nil_r.
      apply ScanLast; [exact Hb | cbn [out]; congruence].
    + cbn [ret out blk env evs]. rewrite app_nil_r.
      apply ScanLast; [exact Hb | cbn [out]; congruence].
  - erewrite bind_fail_run by exact Hr.
    apply ScanLast; [exact Hb | cbn [out]; congruence].
Qed.

(** *** Lists of regions *)

Lemma classified_app l1 l2 :
  classified (l1 ++ l2) = classified l1 ++ classified l2.
Proof. apply flat_map_app. Qed.

Lemma sane_lsns_app A max l1 l2 :
  sane_lsns A max (l1 ++ l2) = sane_lsns A max l1 ++ sane_lsns A max l2.
Proof. apply flat_map_app. Qed.

Lemma max_list_app d l1 l2 :
  max_list d (l1 ++ l2) = max_list (max_list d l1) l2.
Proof. apply fold_left_app. Qed.

Lemma max_list_le d l : d <= max_list d l.
Proof.
  revert d. induction l as [| x l IH]; intros d; cbn; [lia |].
  specialize (IH (Z.max d x)). unfold max_list in IH. lia.
Qed.

Lemma chain_app lo l1 mid l2 hi :
  chain lo l1 mid -> chain mid l2 hi -> chain lo (l1 ++ l2) hi.
Proof.
  revert lo. induction l1 as [| r l1 IH]; cbn; intros lo H1 H2.
  - now subst.
  - destruct H1 as (Ho & Hl & H1). repeat split; auto.
Qed.

Lemma chain_le lo rs hi : chain lo rs hi -> lo <= hi.
Proof.
  revert lo. induction rs as [| r rs IH]; cbn; intros lo H.
  - lia.
  - destruct H as (_ & Hl & H). apply IH in H. lia.
Qed.

Lemma chain_within lo rs hi :
  chain lo rs hi ->
  Forall (fun r => lo <= r_off r /\ r_off r + r_len r <= hi) rs.
Proof.
  revert lo. induction rs as [| r rs IH]; cbn; intros lo H; constructor.
  - destruct H as (Ho & Hl & H). apply chain_le in H. lia.
  - destruct H as (Ho & Hl & H). apply IH in H.
    eapply Forall_impl; [| exact H]. cbn. intros; lia.
Qed.

Lemma chain_tiles lo rs hi : chain lo rs hi -> tiles rs lo hi.
Proof.
  unfold tiles, count_cover.
  revert lo. induction rs as [| r rs IH]; cbn [chain filter length]; intros lo H x.
  - subst. destruct (hi <=? x) eqn:H1, (x <? hi) eqn:H2; try reflexivity; lia.
  - destruct H as (Ho & Hl & H).
    pose proof (chain_le _ _ _ H) as Hle.
    specialize (IH _ H x).
    destruct (covers x r) eqn:Hc; cbn [length]; rewrite IH;
      unfold covers in Hc;
      destruct (r_off r <=? x) eqn:H1, (x <? r_off r + r_len r) eqn:H2;
      cbn [andb] in Hc; try discriminate;
      destruct (lo <=? x) eqn:H3, (x <? hi) eqn:H4,
               (lo + r_len r <=? x) eqn:H5; cbn [andb]; try reflexivity; lia.
Qed.

Lemma chain_disjoint lo rs hi :
  chain lo rs hi -> ForallOrdPairs disjoint rs.
Proof.
  revert lo. induction rs as [| r rs IH]; cbn; intros lo H.
  - constructor.
  - destruct H as (Ho & Hl & H). constructor; [| now apply IH in H].
    apply chain_within in H. eapply Forall_impl; [| exact H].
    cbn. unfold disjoint. intros; lia.
Qed.

(** *** The turns that end with [continue] *)

Lemma probe_facts max A o b e dsk b1 e1 l :
  garbage_probe max A o b e dsk b1 e1 l ->
  classified l = [] /\
  forallb (skip_event A) l = true /\
  slvg_off b1 = slvg_off b /\ fh b1 = fh b /\ allocsize b1 = allocsize b /\
  flags b1 = flags b /\ freelist b1 = freelist b /\
  lsn b1 = max_list (lsn b) (sane_lsns A max l).
Proof.
  inversion 1; subst.
  - cbn. rewrite Z.eqb_refl. repeat split; try reflexivity.
    match goal with H : size_insane _ _ _ _ = true |- _ => rewrite H end.
    reflexivity.
  - cbn. rewrite Z.eqb_refl. unfold bump_lsn.
    match goal with H : size_insane _ _ _ _ = false |- _ => rewrite H end.
    cbn. destruct (lsn b <? Dsk.lsn dsk) eqn:Hl; cbn;
      repeat split; try reflexivity; lia.
Qed.

Lemma body_skip_inv max A o b e (r : run E ctl) o' :
  body_spec max A o b e r -> out r = Ret (Continue o') ->
  exists dsk b1 e1 l,
    garbage_probe max A o b e dsk b1 e1 l /\ o < max /\ o' = o + A /\
    blk r = skipped o A b1 /\ evs r = l ++ [EvFree o A (Ok tt)].
Proof.
  inversion 1; subst; cbn [out blk evs]; intros Ho; try discriminate.
  injection Ho as <-. eauto 10.
Qed.

Lemma skip_prefix_nil max A o b : skip_prefix max A o b [] o b.
Proof.
  constructor; cbn; auto.
  - now rewrite app_nil_r.
  - exists 0. lia.
Qed.

Lemma skip_prefix_cons max A o b e (r1 : run E ctl) l o1 b1 :
  0 < A ->
  body_spec max A o b e r1 -> out r1 = Ret (Continue (o + A)) ->
  skip_prefix max A (o + A) (blk r1) l o1 b1 ->
  skip_prefix max A o b (evs r1 ++ l) o1 b1.
Proof.
  intros HA Hb Hc [Hch Hun Hev Hcur Hfh Has Hfl Hlsn Hfree Hstep Hbel].
  destruct (body_skip_inv Hb Hc) as (dsk & b0 & e0 & l0 & Hp & Hlt & _ & Hblk & Hevs).
  destruct (probe_facts Hp) as (Hc0 & Hev0 & Hso & Hfh0 & Has0 & Hfl0 & Hfr0 & Hlsn0).
  rewrite Hblk in *. rewrite Hevs.
  assert (Hcl : classified (l0 ++ [EvFree o A (Ok tt)]) = [Garbage o A]).
  { rewrite classified_app, Hc0. reflexivity. }
  constructor.
  - rewrite classified_app, Hcl. cbn. repeat split; auto.
  - rewrite classified_app, Hcl. constructor; [now exists o | exact Hun].
  - rewrite !forallb_app, Hev0, Hev. cbn. now rewrite Z.eqb_refl.
  - intros _. apply Hcur. reflexivity.
  - rewrite Hfh. cbn. exact Hfh0.
  - rewrite Has. cbn. exact Has0.
  - rewrite Hfl. cbn. exact Hfl0.
  - rewrite Hlsn. cbn [skipped set_slvg_off set_freelist lsn].
    rewrite !sane_lsns_app, !max_list_app, <- Hlsn0. reflexivity.
  - rewrite Hfree, classified_app, Hcl. cbn [skipped set_slvg_off set_freelist freelist].
    rewrite Hfr0, <- app_assoc. reflexivity.
  - destruct Hstep as [k Hk]. exists (k + 1). lia.
  - right. split; [exact Hlt |].
    destruct Hbel as [(_ & -> & _) | [_ H]]; lia.
Qed.

(** Every run of the loop is a sequence of skipped units followed by one
    last turn, which ends the loop. *)
Lemma scan_decompose max A o b e (r : run E ctl) :
  0 < A ->
  scan_spec max A o b e r ->
  exists l o1 b1 e1 r1,
    skip_prefix max A o b l o1 b1 /\
    body_spec max A o1 b1 e1 r1 /\
    (forall o', out r1 <> Ret (Continue o')) /\
    r = mkRun (out r1) (blk r1) (env r1) (l ++ evs r1).
Proof.
  intros HA. induction 1 as [o b e r Hb Hnc | o b e r1 o' r2 Hb Hc Hs IH].
  - exists [], o, b, e, r.
    split; [apply skip_prefix_nil |]. split; [exact Hb |].
    split; [exact Hnc |]. now destruct r.
  - destruct IH as (l & o1 & b1 & e1 & r3 & Hsp & Hb3 & Hnc & ->).
    destruct (body_continue Hb Hc) as [-> _].
    exists (evs r1 ++ l), o1, b1, e1, r3.
    split; [eapply skip_prefix_cons; eauto |]. split; [exact Hb3 |].
    split; [exact Hnc |]. cbn. now rewrite app_assoc.
Qed.

Lemma finish_bind (m : M E ctl) (b : WT_BLOCK) (e : E) :
  bind m
    (fun c : ctl =>
       match c with
       | Break offset size cksum =>
           bind (__wt_block_addr_to_buffer offset size cksum)
             (fun addr =>
                bind (modify_block (set_slvg_off (offset + size)))
                     (fun _ => ret (Page addr)))
       | _ => ret Eof
       end) b e = finish (m b e).
Proof.
  unfold bind at 1, finish.
  destruct (m b e) as [o bb ee l]; cbn [out blk env evs].
  destruct o as [[o' | o' sz ck |] | c |];
    cbn [ret out blk env evs]; try (now rewrite app_nil_r); try reflexivity.
  unfold __wt_block_addr_to_buffer.
  destruct (wt_block_addr_to_buffer bb o' sz ck) as [a | c] eqn:Ha.
  - erewrite bind_ret_run.
    2: { erewrite bind_ret_run by reflexivity.
         erewrite call_ok by (rewrite Ha; reflexivity). reflexivity. }
    reflexivity.
  - erewrite bind_fail_run.
    2: { erewrite bind_ret_run by reflexivity.
         erewrite call_err by (rewrite Ha; reflexivity). reflexivity. }
    reflexivity.
Qed.

Lemma next_spec_holds (b : WT_BLOCK) (e : E) :
  0 < allocsize b ->
  next_spec b e (__wt_block_salvage_next b e).
Proof.
  intros HA. unfold __wt_block_salvage_next.
  erewrite bind_ret_run by reflexivity. cbn [app].
  unfold __wt_buf_initsize.
  destruct (wt_buf_initsize (allocsize b) e) as [[[] | c] e1] eqn:Hbuf.
  2: { erewrite bind_fail_run by (apply call_err; exact Hbuf).
       now apply NextBufErr. }
  erewrite bind_ret_run by (apply call_ok; exact Hbuf).
  cbn [out blk env evs app].
  rewrite finish_bind.
  apply (NextScanned _ Hbuf).
  apply salvage_scan_spec; [exact HA | unfold scan_fuel; lia].
Qed.



(** *** One call of next *)

Lemma salvage_next_cases (b : WT_BLOCK) (e : E) :
  0 < allocsize b ->
  next_cases b e (__wt_block_salvage_next b e).
Proof.
  intros HA.
  destruct (next_spec_holds b e HA) as [c e1 Hbuf | e1 r Hbuf Hs].
  - now apply NcBufErr.
  - destruct (scan_decompose HA Hs) as (l & o1 & b1 & e2 & r1 & Hsp & Hb & Hnc & ->).
    unfold logged_after, finish. cbn [out blk env evs].
    inversion Hb; subst; cbn [out blk env evs] in *.
    + rewrite app_nil_r. eapply NcEof; eassumption.
    + eapply NcReadErr; eassumption.
    + eapply NcFreeErr; eauto.
    + now elim (Hnc (o1 + allocsize b)).
    + destruct (wt_block_addr_to_buffer _ _ _ _) as [a | c] eqn:Ha;
        cbn [out blk env evs]; rewrite <- app_assoc; cbn [app].
      * eapply NcPage; eassumption.
      * eapply NcAddrErr; eassumption.
Qed.

(** *** Start and end *)

(** What a successful start leaves, and that a file no larger than the
    description sector is never truncated. *)
Lemma salvage_start_facts (b : WT_BLOCK) (e : E) :
  let r := __wt_block_salvage_start b e in
  (file_size (fh b) <= WT_BLOCK_DESC_SECTOR ->
   existsb is_truncate (evs r) = false) /\
  (out r = Ret tt ->
   slvg_off (blk r) = WT_BLOCK_DESC_SECTOR /\
   file_size (fh (blk r)) =
     (if file_size (fh b) >? WT_BLOCK_DESC_SECTOR
      then start_len b else file_size (fh b)) /\
   allocsize (blk r) = allocsize b /\ lsn (blk r) = lsn b /\
   flags (blk r) = flags b /\ freelist (blk r) = freelist b).
Proof.
  unfold __wt_block_salvage_start, start_len.
  erewrite bind_ret_run by reflexivity. cbn [app out blk env evs].
  unfold __wt_ftruncate, __wt_desc_init.
  destruct (file_size (fh b) >? WT_BLOCK_DESC_SECTOR) eqn:Hgt.
  - set (len := Z.quot _ _ * _ + _).
    destruct (negb (len =? file_size (fh b))) eqn:Hne.
    + destruct (wt_ftruncate len e) as [[[] | c] e1] eqn:Htr.
      * erewrite bind_ret_run.
        2: { erewrite bind_ret_run by (apply call_ok; exact Htr). reflexivity. }
        cbn [out blk env evs app].
        destruct (wt_desc_init e1) as [[[] | c] e2] eqn:Hd.
        -- erewrite bind_ret_run by (apply call_ok; exact Hd).
           cbn. split; [lia | intros _; repeat split].
        -- erewrite bind_fail_run by (apply call_err; exact Hd).
           cbn. split; [lia | discriminate].
      * erewrite bind_fail_run.
        2: { apply bind_fail_run. apply call_err. exact Htr. }
        cbn. split; [lia | discriminate].
    + assert (Hlen : len = file_size (fh b)).
      { apply negb_false_iff in Hne. lia. }
      erewrite bind_ret_run by reflexivity. cbn [out blk env evs app].
      destruct (wt_desc_init e) as [[[] | c] e2] eqn:Hd.
      * erewrite bind_ret_run by (apply call_ok; exact Hd).
        cbn. split; [reflexivity | intros _; repeat split; auto].
      * erewrite bind_fail_run by (apply call_err; exact Hd).
        cbn. split; [reflexivity | discriminate].
  - erewrite bind_ret_run by reflexivity. cbn [out blk env evs app].
    destruct (wt_desc_init e) as [[[] | c] e2] eqn:Hd.
    + erewrite bind_ret_run by (apply call_ok; exact Hd).
      cbn. split; [reflexivity | intros _; repeat split; auto].
    + erewrite bind_fail_run by (apply call_err; exact Hd).
      cbn. split; [reflexivity | discriminate].
Qed.

(** C3: after a successful start the file size is the description sector
    plus the allocation size times the floor of (F - sector) / A when the
    file was larger than the sector, and is unchanged otherwise. *)
Theorem salvage_start_file_size (b : WT_BLOCK) (e : E) :
  0 < allocsize b ->
  out (__wt_block_salvage_start b e) = Ret tt ->
  let F := file_size (fh b) in
  let A := allocsize b in
  let F' := file_size (fh (blk (__wt_block_salvage_start b e))) in
  (F > WT_BLOCK_DESC_SECTOR ->
   F' = WT_BLOCK_DESC_SECTOR + A * ((F - WT_BLOCK_DESC_SECTOR) / A)) /\
  (F <= WT_BLOCK_DESC_SECTOR -> F' = F).
Proof.
  intros HA Hok F A F'.
  destruct (salvage_start_facts b e) as [_ H].
  destruct (H Hok) as (_ & HF & _). fold F' in HF. fold F in HF.
  split; intros HS.
  - replace (F >? WT_BLOCK_DESC_SECTOR) with true in HF by (symmetry; lia).
    rewrite HF. unfold start_len. fold F A.
    rewrite Z.quot_div_nonneg by lia. lia.
  - replace (F >? WT_BLOCK_DESC_SECTOR) with false in HF by (symmetry; lia).
    exact HF.
Qed.

Lemma F_CLR_clears (f mask : Z) : F_ISSET (F_CLR f mask) mask = false.
Proof.
  unfold F_ISSET, F_CLR.
  replace (Z.land (Z.land f (Z.lnot mask)) mask) with 0; [reflexivity |].
  symmetry. apply Z.bits_inj'. intros n Hn.
  rewrite !Z.land_spec, Z.lnot_spec, Z.bits_0 by exact Hn.
  destruct (Z.testbit mask n), (Z.testbit f n); reflexivity.
Qed.

(** C8: an unsuccessful end clears [WT_BLOCK_OK] and empties the free list;
    a successful end changes neither the block nor anything else. *)
Theorem salvage_end_invalidates (b : WT_BLOCK) (e : E) (success : Z) :
  let r := __wt_block_salvage_end success b e in
  out r = Ret tt /\
  (success = 0 ->
   F_ISSET (flags (blk r)) WT_BLOCK_OK = false /\
   freelist (blk r) = [] /\ evs r = [EvDiscard]) /\
  (success <> 0 -> blk r = b /\ env r = e /\ evs r = []).
Proof.
  unfold __wt_block_salvage_end.
  destruct (success =? 0) eqn:Hs.
  - erewrite bind_ret_run.
    2: { erewrite bind_ret_run by reflexivity. reflexivity. }
    cbn. split; [reflexivity |]. split; [| lia].
    intros _. now rewrite F_CLR_clears.
  - erewrite bind_ret_run by reflexivity.
    cbn. split; [reflexivity |]. split; [lia |]. auto.
Qed.

(** At the end of the file the call reads nothing and changes nothing. *)
Lemma salvage_next_at_eof (b : WT_BLOCK) (e : E) :
  file_size (fh b) <= slvg_off b ->
  let r := __wt_block_salvage_next b e in
  blk r = b /\ existsb is_io (evs r) = false /\
  (fst (wt_buf_initsize (allocsize b) e) = Ok tt -> out r = Ret Eof).
Proof.
  intros Hle. unfold __wt_block_salvage_next.
  erewrite bind_ret_run by reflexivity. cbn [app].
  unfold __wt_buf_initsize.
  destruct (wt_buf_initsize (allocsize b) e) as [[[] | c] e1] eqn:Hbuf.
  - erewrite bind_ret_run by (apply call_ok; exact Hbuf).
    cbn [out blk env evs app]. rewrite finish_bind.
    unfold scan_fuel. cbn [salvage_scan]. unfold scan_body.
    replace (slvg_off b >=? file_size (fh b)) with true by (symmetry; lia).
    erewrite bind_ret_run by reflexivity. cbn. auto.
  - erewrite bind_fail_run by (apply call_err; exact Hbuf).
    cbn. repeat split; auto. discriminate.
Qed.

(** Start on a file no larger than the description sector: lines 25-32
    are skipped and the outcome is that of the description reset. *)
Lemma salvage_start_small (b : WT_BLOCK) (e : E) :
  file_size (fh b) <= WT_BLOCK_DESC_SECTOR ->
  __wt_block_salvage_start b e =
  match wt_desc_init e with
  | (Ok _, e1) =>
      mkRun (Ret tt) (set_slvg_off WT_BLOCK_DESC_SECTOR b) e1
            [EvDescInit (Ok tt)]
  | (Err c, e1) => mkRun (Fail c) b e1 [EvDescInit (Err c)]
  end.
Proof.
  intros Hsmall. unfold __wt_block_salvage_start.
  erewrite bind_ret_run by reflexivity. cbn [app out blk env evs].
  replace (file_size (fh b) >? WT_BLOCK_DESC_SECTOR) with false
    by (symmetry; lia).
  erewrite bind_ret_run by reflexivity. cbn [out blk env evs app].
  unfold __wt_desc_init.
  destruct (wt_desc_init e) as [[[] | c] e1] eqn:Hd.
  - erewrite bind_ret_run by (apply call_ok; exact Hd). reflexivity.
  - erewrite bind_fail_run by (apply call_err; exact Hd). reflexivity.
Qed.

(** C10: when the file is no larger than the description sector, start
    does not truncate; when the reset of the description sector succeeds,
    start returns 0 with the cursor at the sector size, at or past the end
    of the file, whose size is unchanged, and the next call reads no block
    and reports end-of-file (once its buffer is set up); when the reset
    fails, start returns its error and leaves the cursor alone. *)
Theorem small_file_first_next_is_eof (b : WT_BLOCK) (e : E) :
  file_size (fh b) <= WT_BLOCK_DESC_SECTOR ->
  let r := __wt_block_salvage_start b e in
  existsb is_truncate (evs r) = false /\
  (fst (wt_desc_init e) = Ok tt ->
   out r = Ret tt /\
   slvg_off (blk r) = WT_BLOCK_DESC_SECTOR /\
   file_size (fh (blk r)) = file_size (fh b) /\
   file_size (fh (blk r)) <= slvg_off (blk r) /\
   let r' := __wt_block_salvage_next (blk r) (env r) in
   blk r' = blk r /\
   existsb is_io (evs r') = false /\
   (fst (wt_buf_initsize (allocsize (blk r)) (env r)) = Ok tt ->
    out r' = Ret Eof)) /\
  (forall c, fst (wt_desc_init e) = Err c ->
   out r = Fail c /\ blk r = b).
Proof.
  intros Hsmall r. unfold r. rewrite (salvage_start_small b e Hsmall).
  destruct (wt_desc_init e) as [[[] | c] e1] eqn:Hd; cbn [fst].
  - split; [reflexivity |]. split; [| discriminate].
    intros _. cbn [out blk env evs set_slvg_off slvg_off fh].
    assert (Hle : file_size (fh (set_slvg_off WT_BLOCK_DESC_SECTOR b))
                  <= slvg_off (set_slvg_off WT_BLOCK_DESC_SECTOR b))
      by exact Hsmall.
    destruct (salvage_next_at_eof (set_slvg_off WT_BLOCK_DESC_SECTOR b) e1 Hle)
      as (Hblk & Hio & Heof).
    repeat split; auto.
  - split; [reflexivity |]. split; [discriminate |].
    intros c' Hc. injection Hc as <-. split; reflexivity.
Qed.

(** *** One probe *)

Lemma size_insane_iff (size A o max : Z) :
  A <> 0 ->
  size_insane size A o max = true <->
  size = 0 \/ ~ (A | size) \/ size > WT_BTREE_PAGE_SIZE_MAX \/ o + size > max.
Proof.
  intros HA. unfold size_insane. rewrite !orb_true_iff, negb_true_iff.
  rewrite Z.eqb_eq, Z.eqb_neq, <- Z.rem_divide by exact HA.
  split.
  - intros [[[H | H] | H] | H]; auto.
    + right. right. left. lia.
    + right. right. right. lia.
  - intros [H | [H | [H | H]]]; auto.
    + left. right. lia.
    + right. lia.
Qed.

(** C6: the header read at [offset] goes to [skip] straight after the read,
    with no verified read in between, exactly when its size is 0, or is not
    a multiple of the allocation size, or is larger than the maximum page
    size, or reaches past the end of the file. *)
Theorem header_rejected_iff (max A offset : Z) (b : WT_BLOCK) (e e1 : E)
  (dsk : Dsk.WT_PAGE_DISK) :
  A <> 0 ->
  offset < max ->
  wt_read offset A e = (Ok dsk, e1) ->
  let size := Z.of_N (Dsk.size dsk) in
  let r := scan_body max A offset b e in
  (existsb is_block_read (evs r) = false /\
   exists fr, evs r = [EvRead offset A (Ok dsk); EvFree offset A fr]) <->
  (size = 0 \/ ~ (A | size) \/ size > WT_BTREE_PAGE_SIZE_MAX \/
   offset + size > max).
Proof.
  intros HA Hlt Hrd size r.
  rewrite <- (size_insane_iff size offset max HA).
  unfold r, scan_body. subst size.
  replace (offset >=? max) with false by (symmetry; lia).
  erewrite bind_ret_run by (apply call_ok; exact Hrd). cbn [evs].
  destruct (size_insane (Z.of_N (Dsk.size dsk)) A offset max) eqn:Hins.
  - destruct (wt_block_free offset A e1) as [[[] | c] e2] eqn:Hfr.
    + erewrite skip_ok by exact Hfr. cbn. split; eauto.
    + erewrite skip_err by exact Hfr. cbn. split; eauto.
  - erewrite bind_ret_run by reflexivity.
    erewrite bind_ret_run by apply bump_lsn_run.
    destruct (wt_block_read offset (Z.of_N (Dsk.size dsk)) (Dsk.cksum dsk) e1)
      as [rb e2] eqn:Hbr.
    erewrite bind_ret_run by (apply call_test_run; exact Hbr).
    cbn [evs app existsb is_block_read orb].
    split; [intros [H _]; discriminate | discriminate].
Qed.

(** C4: a probe at [o] that fails, because the header is implausible or
    because the verified read fails, and whose unit is freed, moves the
    cursor to [o + allocsize] and frees the unit at [o] and nothing else,
    whatever size the header declares. *)
Theorem failed_probe_costs_one_unit (max A o : Z) (b b1 : WT_BLOCK)
  (e e1 e2 : E) (dsk : Dsk.WT_PAGE_DISK) (l : list event) :
  o < max ->
  garbage_probe max A o b e dsk b1 e1 l ->
  wt_block_free o A e1 = (Ok tt, e2) ->
  let r := scan_body max A o b e in
  out r = Ret (Continue (o + A)) /\
  slvg_off (blk r) = o + A /\
  classified (evs r) = [Garbage o A] /\
  freelist (blk r) = freelist b ++ [(o, A)].
Proof.
  intros Hlt Hp Hfr r.
  assert (Hr : r = mkRun (Ret (Continue (o + A))) (skipped o A b1) e2
                     (l ++ [EvFree o A (Ok tt)])).
  { unfold r, scan_body.
    replace (o >=? max) with false by (symmetry; lia).
    inversion Hp as [e0 Hrd Hins | e0 c0 e2' Hrd Hins Hbr]; subst.
    - erewrite bind_ret_run by (apply call_ok; exact Hrd).
      rewrite Hins. erewrite skip_ok by exact Hfr. reflexivity.
    - erewrite bind_ret_run by (apply call_ok; exact Hrd).
      rewrite Hins.
      erewrite bind_ret_run by reflexivity.
      erewrite bind_ret_run by apply bump_lsn_run.
      erewrite bind_ret_run by (apply call_test_run; exact Hbr).
      cbv beta iota. erewrite skip_ok by exact Hfr. reflexivity. }
  destruct (probe_facts Hp) as (Hc & _ & _ & _ & _ & _ & Hfl & _).
  rewrite Hr. cbn [out blk evs skipped set_slvg_off set_freelist slvg_off freelist].
  rewrite classified_app, Hc, Hfl. auto.
Qed.

(** *** One call of next: end of file, pages, failures *)

Lemma skip_events_quiet A l ev :
  forallb (skip_event A) l = true -> In ev l ->
  io_failure ev = None /\
  (forall o sz ck, ev <> EvBlockRead o sz ck (Ok tt)).
Proof.
  intros Hall Hin. rewrite forallb_forall in Hall. specialize (Hall _ Hin).
  destruct ev as [? ? | ? ? [] | ? ? ? [] | ? ? [] | | | |];
    cbn in Hall |- *; try discriminate; split; congruence.
Qed.

Ltac splits := repeat match goal with |- _ /\ _ => split end.

Ltac split_in H :=
  cbn [In] in H; rewrite ?in_app_iff in H; cbn [In] in H;
  repeat match goal with
         | H' : _ \/ _ |- _ => destruct H'
         | H' : False |- _ => elim H'
         end.

Ltac quiet_contra :=
  match goal with
  | Hq : forallb (skip_event _) ?l = true, Hi : In _ ?l |- _ =>
      let H1 := fresh in let H2 := fresh in
      destruct (@skip_events_quiet _ _ _ Hq Hi) as [H1 H2];
      try congruence; try (eelim H2; reflexivity)
  end.




(** C7: when the verified read of the page at [offset] succeeds, its size
    and checksum are those of the header read at [offset], the cookie is
    encoded for that offset, size and checksum as the last call, and when
    the encoder gives a cookie the call returns it and leaves the cursor at
    [offset + size]. *)
Theorem verified_page_returned (b : WT_BLOCK) (e : E) (offset size cksum : Z) :
  0 < allocsize b ->
  let r := __wt_block_salvage_next b e in
  In (EvBlockRead offset size cksum (Ok tt)) (evs r) ->
  exists dsk ra,
    In (EvRead offset (allocsize b) (Ok dsk)) (evs r) /\
    size = Z.of_N (Dsk.size dsk) /\ cksum = Dsk.cksum dsk /\
    last (evs r) EvDiscard = EvAddr offset size cksum ra /\
    wt_block_addr_to_buffer (set_slvg_off offset (blk r)) offset size cksum
      = ra /\
    match ra with
    | Ok addr =>
        out r = Ret (Page addr) /\ slvg_off (blk r) = offset + size
    | Err c => out r = Fail c /\ slvg_off (blk r) = offset
    end.
Proof.
  intros HA r Hin. pose proof (salvage_next_cases b e HA) as Hc. fold r in Hc.
  assert (Hset : forall x o o', slvg_off x = o ->
                 set_slvg_off o (set_slvg_off o' x) = x
                 /\ set_slvg_off o x = x).
  { intros [] o o' <-. split; reflexivity. }
  assert (Hbump : forall d x, slvg_off (bump_lsn d x) = slvg_off x).
  { intros d x. unfold bump_lsn. now destruct (lsn x <? Dsk.lsn d). }
  destruct Hc as [c e1 Hbuf | l o1 b1 e2 Hsp Hle | l o1 b1 e2 c Hsp Hlt
                  | l o1 b1 e1 dsk b2 e2 l2 e3 c Hsp Hlt Hp
                  | l o1 b1 dsk e2 a Hsp Hlt Hins Ha
                  | l o1 b1 dsk e2 c Hsp Hlt Hins Ha];
    cbn [out blk evs] in *;
    try (destruct (probe_facts Hp) as (_ & Hq2 & _));
    try (destruct Hsp as [_ _ Hq Hcur _ _ _ _ _ _ _];
         specialize (Hcur eq_refl)).
  - split_in Hin; discriminate.
  - split_in Hin; try discriminate; quiet_contra.
  - split_in Hin; try discriminate; quiet_contra.
  - split_in Hin; try discriminate; quiet_contra.
  - split_in Hin; try discriminate; try quiet_contra.
    match goal with H : EvBlockRead _ _ _ _ = _ |- _ =>
      injection H as <- <- <- end.
    exists dsk, (Ok a). rewrite <- Hcur in *.
    destruct (Hset (bump_lsn dsk b1) (slvg_off b1)
                (slvg_off b1 + Z.of_N (Dsk.size dsk)) (Hbump dsk b1)) as [-> _].
    repeat split; auto.
    + right. apply in_or_app. right. now left.
    + change (EvBufInit (allocsize b) (Ok tt) :: l ++ ?x :: ?y :: [?z])
        with ((EvBufInit (allocsize b) (Ok tt) :: l) ++ [x; y] ++ [z]).
      rewrite app_assoc. apply last_last.
  - split_in Hin; try discriminate; try quiet_contra.
    match goal with H : EvBlockRead _ _ _ _ = _ |- _ =>
      injection H as <- <- <- end.
    exists dsk, (Err c). rewrite <- Hcur in *.
    destruct (Hset (bump_lsn dsk b1) (slvg_off b1) 0 (Hbump dsk b1)) as [_ ->].
    repeat split; auto.
    + right. apply in_or_app. right. now left.
    + change (EvBufInit (allocsize b) (Ok tt) :: l ++ ?x :: ?y :: [?z])
        with ((EvBufInit (allocsize b) (Ok tt) :: l) ++ [x; y] ++ [z]).
      rewrite app_assoc. apply last_last.
Qed.

(** C9: when a read or a free fails inside a call, that call is the last
    the function makes, its error code is what the function returns, and
    the cursor is left at the offset of the failed call, not below the
    cursor the function started with. *)
Theorem io_failure_propagates (b : WT_BLOCK) (e : E) (ev : event) (off c : Z) :
  0 < allocsize b ->
  let r := __wt_block_salvage_next b e in
  In ev (evs r) ->
  io_failure ev = Some (off, c) ->
  out r = Fail c /\ last (evs r) EvDiscard = ev /\
  slvg_off (blk r) = off /\ slvg_off b <= off.
Proof.
  intros HA r Hin Hio. pose proof (salvage_next_cases b e HA) as Hc.
  fold r in Hc.
  destruct Hc as [c' e1 Hbuf | l o1 b1 e2 Hsp Hle | l o1 b1 e2 c' Hsp Hlt
                  | l o1 b1 e1 dsk b2 e2 l2 e3 c' Hsp Hlt Hp
                  | l o1 b1 dsk e2 a Hsp Hlt Hins Ha
                  | l o1 b1 dsk e2 c' Hsp Hlt Hins Ha];
    cbn [out blk evs] in *;
    try (destruct (probe_facts Hp) as (_ & Hq2 & Hso2 & _));
    try (destruct Hsp as [Hch _ Hq Hcur _ _ _ _ _ _ _];
         specialize (Hcur eq_refl); apply chain_le in Hch);
    split_in Hin; subst; cbn in Hio; try discriminate; try quiet_contra.
  - injection Hio as <- <-. repeat split; auto.
    rewrite app_comm_cons. apply last_last.
  - injection Hio as <- <-. repeat split; auto; try lia.
    rewrite app_comm_cons, app_assoc. apply last_last.
Qed.

(** *** What one call does to the block *)

Lemma size_sane_facts (size A o max : Z) :
  A <> 0 ->
  size_insane size A o max = false ->
  size <> 0 /\ (A | size) /\ size <= WT_BTREE_PAGE_SIZE_MAX /\ o + size <= max.
Proof.
  intros HA H. unfold size_insane in H.
  rewrite !orb_false_iff, negb_false_iff, Z.eqb_eq, Z.eqb_neq in H.
  destruct H as [[[H1 H2] H3] H4].
  apply Z.rem_divide in H2; [| exact HA]. repeat split; auto; lia.
Qed.

Lemma bump_lsn_facts (dsk : Dsk.WT_PAGE_DISK) (x : WT_BLOCK) :
  lsn (bump_lsn dsk x) = Z.max (lsn x) (Dsk.lsn dsk) /\
  slvg_off (bump_lsn dsk x) = slvg_off x /\ fh (bump_lsn dsk x) = fh x /\
  allocsize (bump_lsn dsk x) = allocsize x /\
  flags (bump_lsn dsk x) = flags x.
Proof.
  unfold bump_lsn. destruct (lsn x <? Dsk.lsn dsk) eqn:H; cbn;
    repeat split; lia.
Qed.

Lemma aligned_below (A o o1 F : Z) :
  0 < A -> (A | o1 - o) -> (A | F - o) -> o1 - A < F ->
  o1 <= F /\ (A | F - o1).
Proof.
  intros HA [k Hk] [m Hm] Hlt.
  assert (Hd : F - o1 = (m - k) * A) by lia.
  split; [| now exists (m - k)].
  destruct (Z_lt_le_dec (m - k) 0) as [Hneg | Hpos].
  - assert ((m - k) * A <= - A) by nia. lia.
  - assert (0 <= (m - k) * A) by nia. lia.
Qed.

Lemma skip_prefix_facts (F A : Z) (b : WT_BLOCK) l o1 b1 :
  0 < A ->
  skip_prefix F A (slvg_off b) b l o1 b1 ->
  slvg_off b1 = o1 /\ slvg_off b <= o1 /\
  (slvg_off b <= F -> (A | F - slvg_off b) -> o1 <= F /\ (A | F - o1)) /\
  (F <= slvg_off b -> o1 = slvg_off b /\ l = [] /\ b1 = b).
Proof.
  intros HA [Hch _ _ Hcur _ _ _ _ _ Hstep Hbel].
  split; [now apply Hcur |]. split; [now apply chain_le in Hch |]. split.
  - intros Hle Hal. destruct Hbel as [(_ & -> & _) | [_ Hb]]; [auto |].
    eapply aligned_below; eauto.
  - intros Hge. destruct Hbel as [(-> & -> & ->) | [Hlt _]]; [auto | lia].
Qed.

Lemma salvage_next_facts (b : WT_BLOCK) (e : E) :
  0 < allocsize b ->
  let r := __wt_block_salvage_next b e in
  let F := file_size (fh b) in
  chain (slvg_off b) (classified (evs r)) (slvg_off (blk r)) /\
  fh (blk r) = fh b /\ allocsize (blk r) = allocsize b /\
  lsn (blk r) = max_list (lsn b) (sane_lsns (allocsize b) F (evs r)) /\
  (slvg_off b <= F -> (allocsize b | F - slvg_off b) ->
   slvg_off (blk r) <= F /\ (allocsize b | F - slvg_off (blk r))) /\
  (F <= slvg_off b -> slvg_off (blk r) = slvg_off b) /\
  (out r = Ret Eof -> F <= slvg_off (blk r)).
Proof.
  intros HA r F. subst F.
  pose proof (salvage_next_cases b e HA) as Hc. fold r in Hc.
  assert (HA0 : allocsize b <> 0) by lia.
  destruct Hc as [c' e1 Hbuf | l o1 b1 e2 Hsp Hle | l o1 b1 e2 c' Hsp Hlt
                  | l o1 b1 e1 dsk b2 e2 l2 e3 c' Hsp Hlt Hp
                  | l o1 b1 dsk e2 a Hsp Hlt Hins Ha
                  | l o1 b1 dsk e2 c' Hsp Hlt Hins Ha];
    cbn [out blk evs] in *;
    [ cbn; splits; auto; discriminate | ..];
    destruct (@skip_prefix_facts _ _ _ _ _ _ HA Hsp) as (Hcur & Hmono & Hal & Hpast);
    destruct Hsp as [Hch _ _ _ Hfh Has _ Hlsn _ _ _];
    change (classified (EvBufInit (allocsize b) (Ok tt) :: ?x))
      with (classified x);
    change (sane_lsns (allocsize b) (file_size (fh b))
              (EvBufInit (allocsize b) (Ok tt) :: ?x))
      with (sane_lsns (allocsize b) (file_size (fh b)) x).
  - (* end of file *)
    rewrite Hcur. splits; auto. intros Hge. now destruct (Hpast Hge).
  - (* the header read fails *)
    rewrite classified_app, sane_lsns_app, max_list_app, <- Hlsn, Hcur.
    cbn [classified flat_map classified_by sane_lsns sane_lsn max_list fold_left].
    rewrite app_nil_r. splits; auto; try discriminate.
    intros Hge. now destruct (Hpast Hge).
  - (* the free fails *)
    destruct (probe_facts Hp) as (Hc2 & _ & Hso2 & Hfh2 & Has2 & _ & _ & Hlsn2).
    rewrite !classified_app, !sane_lsns_app, !max_list_app, <- Hlsn, <- Hlsn2.
    rewrite Hc2, Hso2, Hcur, Hfh2, Has2.
    cbn [classified flat_map classified_by sane_lsns sane_lsn max_list
         fold_left app].
    rewrite app_nil_r. splits; auto; try discriminate.
    intros Hge. now destruct (Hpast Hge).
  - (* a page is returned *)
    destruct (bump_lsn_facts dsk b1) as (Hl & Hso & Hfh3 & Has3 & _).
    destruct (@size_sane_facts _ _ _ _ HA0 Hins) as (Hnz & Hdiv & _ & Hend).
    rewrite classified_app, sane_lsns_app, max_list_app, <- Hlsn.
    cbn [classified flat_map classified_by sane_lsns sane_lsn max_list
         fold_left app set_slvg_off slvg_off fh allocsize lsn].
    rewrite Hins. cbn [app fold_left]. rewrite Hl, Hfh3, Has3.
    splits; auto; try discriminate; try lia.
    + eapply chain_app; [exact Hch |]. cbn. repeat split; lia.
    + intros Hle Hal'. destruct (Hal Hle Hal') as [_ Hd].
      replace (file_size (fh b) - (o1 + Z.of_N (Dsk.size dsk)))
        with (file_size (fh b) - o1 - Z.of_N (Dsk.size dsk)) by lia.
      split; [exact Hend | now apply Z.divide_sub_r].
  - (* the cookie cannot be encoded *)
    destruct (bump_lsn_facts dsk b1) as (Hl & Hso & Hfh3 & Has3 & _).
    rewrite classified_app, sane_lsns_app, max_list_app, <- Hlsn.
    cbn [classified flat_map classified_by sane_lsns sane_lsn max_list
         fold_left app].
    rewrite Hins. cbn [app fold_left]. rewrite app_nil_r, Hl, Hfh3, Has3, Hso, Hcur.
    splits; auto; try discriminate. intros Hge. lia.
Qed.

(** *** A sequence of calls *)

Lemma salvage_calls_facts (n : nat) :
  forall (b : WT_BLOCK) (e : E),
  0 < allocsize b ->
  let p := salvage_calls n b e in
  let F := file_size (fh b) in
  chain (slvg_off b) (classified (cevs p)) (slvg_off (cblk p)) /\
  fh (cblk p) = fh b /\ allocsize (cblk p) = allocsize b /\
  lsn (cblk p) = max_list (lsn b) (sane_lsns (allocsize b) F (cevs p)) /\
  (slvg_off b <= F -> (allocsize b | F - slvg_off b) ->
   slvg_off (cblk p) <= F /\ (allocsize b | F - slvg_off (cblk p))) /\
  (F <= slvg_off b -> slvg_off (cblk p) = slvg_off b) /\
  (In (Ret Eof) (outs p) -> F <= slvg_off (cblk p)).
Proof.
  induction n as [| n IH]; intros b e HA; cbn [salvage_calls].
  - cbn. splits; auto. intros [].
  - cbn [outs cblk cevs].
    destruct (salvage_next_facts b e HA)
      as (Hch & Hfh & Has & Hlsn & Hal & Hpast & Heof).
    set (r := __wt_block_salvage_next b e) in *.
    assert (HA' : 0 < allocsize (blk r)) by (rewrite Has; exact HA).
    destruct (IH (blk r) (env r) HA')
      as (Hch' & Hfh' & Has' & Hlsn' & Hal' & Hpast' & Heof').
    set (p := salvage_calls n (blk r) (env r)) in *.
    rewrite Hfh, Has in *.
    rewrite classified_app, sane_lsns_app, max_list_app, <- Hlsn.
    splits; auto.
    + eapply chain_app; eauto.
    + intros Hle Hdiv. destruct (Hal Hle Hdiv) as [Hle1 Hdiv1]. auto.
    + intros Hge. rewrite Hpast' by (rewrite Hpast by exact Hge; exact Hge).
      auto.
    + intros [Ho | Hin]; [| auto].
      apply Heof in Ho. apply chain_le in Hch'. lia.
Qed.

Lemma chain_positive lo rs hi :
  chain lo rs hi -> Forall (fun rg => 0 < r_len rg) rs.
Proof.
  revert lo. induction rs as [| r rs IH]; cbn; intros lo H; constructor.
  - tauto.
  - destruct H as (_ & _ & H). eauto.
Qed.

Lemma tiles_same (rs : list region) (lo hi hi' : Z) :
  tiles rs lo hi -> (hi = hi' \/ hi <= lo /\ hi' <= lo) -> tiles rs lo hi'.
Proof.
  intros H Hh x. rewrite (H x).
  destruct (lo <=? x) eqn:H1, (x <? hi) eqn:H2, (x <? hi') eqn:H3;
    cbn; try reflexivity; lia.
Qed.

(** C1: after a successful start, whatever the number of calls of next, the
    pages returned and the units freed are pairwise disjoint, none is
    empty, and every offset from the description sector up to the cursor is
    in exactly one of them (and no other offset is in any); once a call has
    reported end-of-file they tile the file from the description sector to
    its end. *)
Theorem salvage_regions_tile (b : WT_BLOCK) (e : E) (n : nat) :
  0 < allocsize b ->
  out (__wt_block_salvage_start b e) = Ret tt ->
  let s := __wt_block_salvage_start b e in
  let p := salvage_calls n (blk s) (env s) in
  let rs := classified (cevs p) in
  ForallOrdPairs disjoint rs /\
  Forall (fun rg => 0 < r_len rg) rs /\
  WT_BLOCK_DESC_SECTOR <= slvg_off (cblk p) /\
  tiles rs WT_BLOCK_DESC_SECTOR (slvg_off (cblk p)) /\
  (In (Ret Eof) (outs p) ->
   tiles rs WT_BLOCK_DESC_SECTOR (file_size (fh (cblk p)))).
Proof.
  intros HA Hok s p rs.
  destruct (salvage_start_facts b e) as [_ Hs]. fold s in Hs.
  destruct (Hs Hok) as (Hoff & HF & Has & _).
  assert (HA' : 0 < allocsize (blk s)) by (rewrite Has; exact HA).
  destruct (salvage_calls_facts n (blk s) (env s) HA')
    as (Hch & Hfh & _ & _ & Hal & Hpast & Heof).
  fold p in Hch, Hfh, Hal, Hpast, Heof. fold rs in Hch.
  rewrite Hoff in *. rewrite Hfh.
  splits.
  - eapply chain_disjoint; eauto.
  - eapply chain_positive; eauto.
  - eapply chain_le; eauto.
  - apply chain_tiles; exact Hch.
  - intros Hin. apply Heof in Hin.
    apply (tiles_same (chain_tiles _ _ _ Hch)).
    destruct (file_size (fh b) >? WT_BLOCK_DESC_SECTOR) eqn:Hgt.
    + left. unfold start_len in HF.
      assert (Hq : 0 <= Z.quot (file_size (fh b) - WT_BLOCK_DESC_SECTOR)
                          (allocsize b)) by (apply Z.quot_pos; lia).
      assert (Hle : WT_BLOCK_DESC_SECTOR <= file_size (fh (blk s))) by nia.
      assert (Hdiv : (allocsize (blk s)
                      | file_size (fh (blk s)) - WT_BLOCK_DESC_SECTOR)).
      { rewrite Has, HF. eexists. 
        rewrite Z.add_simpl_r. reflexivity. }
      destruct (Hal Hle Hdiv) as [Hle' _]. lia.
    + right. rewrite (Hpast ltac:(lia)). lia.
Qed.

(** C2, as amended: after a successful start and any number of calls of
    next, in particular once end-of-file was reported, the sequence number
    of the block is the largest of its value before the scan and of the
    sequence numbers of all the headers that passed the size test, whether
    their verified read then succeeded or not. *)
Theorem watermark_is_max_of_plausible (b : WT_BLOCK) (e : E) (n : nat) :
  0 < allocsize b ->
  out (__wt_block_salvage_start b e) = Ret tt ->
  let s := __wt_block_salvage_start b e in
  let p := salvage_calls n (blk s) (env s) in
  lsn (cblk p) =
  max_list (lsn b)
    (sane_lsns (allocsize b) (file_size (fh (blk s))) (cevs p)).
Proof.
  intros HA Hok s p.
  destruct (salvage_start_facts b e) as [_ Hs]. fold s in Hs.
  destruct (Hs Hok) as (_ & _ & Has & Hlsn & _).
  assert (HA' : 0 < allocsize (blk s)) by (rewrite Has; exact HA).
  destruct (salvage_calls_facts n (blk s) (env s) HA')
    as (_ & _ & _ & Hl & _). fold p in Hl.
  rewrite Hl, Hlsn, Has. reflexivity.
Qed.

(** * Further properties of the three functions *)

(** *** Start *)

(** The five ways [__wt_block_salvage_start] ends. *)
Lemma salvage_start_cases (b : WT_BLOCK) (e : E) :
  let r := __wt_block_salvage_start b e in
  let F := file_size (fh b) in
  let S := WT_BLOCK_DESC_SECTOR in
  let len := start_len b in
  (F > S /\ len <> F /\
   ((exists c e1, r = mkRun (Fail c) b e1 [EvTruncate len (Err c)]) \/
    (exists c e2,
        r = mkRun (Fail c) (set_file_size len b) e2
              [EvTruncate len (Ok tt); EvDescInit (Err c)]) \/
    (exists e2,
        r = mkRun (Ret tt) (set_slvg_off S (set_file_size len b)) e2
              [EvTruncate len (Ok tt); EvDescInit (Ok tt)]))) \/
  ((F <= S \/ len = F) /\
   ((exists c e2, r = mkRun (Fail c) b e2 [EvDescInit (Err c)]) \/
    (exists e2, r = mkRun (Ret tt) (set_slvg_off S b) e2 [EvDescInit (Ok tt)]))).
Proof.
  unfold __wt_block_salvage_start, start_len.
  erewrite bind_ret_run by reflexivity. cbn [app out blk env evs].
  unfold __wt_ftruncate, __wt_desc_init.
  destruct (file_size (fh b) >? WT_BLOCK_DESC_SECTOR) eqn:Hgt.
  - set (len := Z.quot _ _ * _ + _).
    destruct (negb (len =? file_size (fh b))) eqn:Hne.
    + left. apply negb_true_iff in Hne.
      split; [lia |]. split; [lia |].
      destruct (wt_ftruncate len e) as [[[] | c] e1] eqn:Htr.
      * erewrite bind_ret_run.
        2: { erewrite bind_ret_run by (apply call_ok; exact Htr). reflexivity. }
        cbn [out blk env evs app].
        destruct (wt_desc_init e1) as [[[] | c] e2] eqn:Hd.
        -- erewrite bind_ret_run by (apply call_ok; exact Hd).
           right. right. exists e2. reflexivity.
        -- erewrite bind_fail_run by (apply call_err; exact Hd).
           right. left. exists c, e2. reflexivity.
      * erewrite bind_fail_run.
        2: { apply bind_fail_run. apply call_err. exact Htr. }
        left. exists c, e1. reflexivity.
    + right. apply negb_false_iff in Hne. split; [right; lia |].
      erewrite bind_ret_run by reflexivity. cbn [out blk env evs app].
      destruct (wt_desc_init e) as [[[] | c] e2] eqn:Hd.
      * erewrite bind_ret_run by (apply call_ok; exact Hd).
        right. exists e2. reflexivity.
      * erewrite bind_fail_run by (apply call_err; exact Hd).
        left. exists c, e2. reflexivity.
  - right. split; [left; lia |].
    erewrite bind_ret_run by reflexivity. cbn [out blk env evs app].
    destruct (wt_desc_init e) as [[[] | c] e2] eqn:Hd.
    + erewrite bind_ret_run by (apply call_ok; exact Hd).
      right. exists e2. reflexivity.
    + erewrite bind_fail_run by (apply call_err; exact Hd).
      left. exists c, e2. reflexivity.
Qed.

(** The length computed at lines 27-29 for a file larger than the
    description sector. *)
Lemma start_len_facts (b : WT_BLOCK) :
  0 < allocsize b ->
  file_size (fh b) > WT_BLOCK_DESC_SECTOR ->
  WT_BLOCK_DESC_SECTOR <= start_len b <= file_size (fh b) /\
  file_size (fh b) - allocsize b < start_len b /\
  (allocsize b | start_len b - WT_BLOCK_DESC_SECTOR) /\
  (start_len b = file_size (fh b) <->
   (allocsize b | file_size (fh b) - WT_BLOCK_DESC_SECTOR)).
Proof.
  intros HA HF. unfold start_len.
  set (d := file_size (fh b) - WT_BLOCK_DESC_SECTOR).
  set (A := allocsize b) in *.
  assert (Hd : 0 < d) by (unfold d; lia).
  pose proof (Z.quot_rem' d A) as Hqr.
  pose proof (Z.rem_bound_pos d A ltac:(lia) HA) as Hr.
  assert (Hq : 0 <= Z.quot d A) by (apply Z.quot_pos; lia).
  splits.
  - nia.
  - unfold d in *. lia.
  - unfold d in *. lia.
  - exists (Z.quot d A). lia.
  - rewrite <- (Z.rem_divide d A) by lia. unfold d in *. split; lia.
Qed.

(** X1: start calls truncate exactly when the file is larger than the
    description sector and the rest is not a whole number of allocation
    units; the length it asks for keeps the sector and whole units only,
    and removes less than one allocation unit. *)
Theorem salvage_start_truncates_iff (b : WT_BLOCK) (e : E) :
  0 < allocsize b ->
  let r := __wt_block_salvage_start b e in
  let F := file_size (fh b) in
  let S := WT_BLOCK_DESC_SECTOR in
  (existsb is_truncate (evs r) = true <->
   F > S /\ ~ (allocsize b | F - S)) /\
  (forall len res, In (EvTruncate len res) (evs r) ->
   S <= len < F /\ F - allocsize b < len /\ (allocsize b | len - S)).
Proof.
  intros HA r F S.
  destruct (salvage_start_cases b e) as [(HF & Hne & Hr) | (Hno & Hr)];
    fold r in Hr; fold F in HF || fold F in Hno.
  - destruct (start_len_facts b HA HF) as (Hb & Hlow & Hdiv & Hiff).
    fold F S in Hb, Hlow, Hdiv, Hiff.
    assert (Hev : exists res rest, evs r = EvTruncate (start_len b) res :: rest
                               /\ forallb (fun ev => negb (is_truncate ev)) rest = true).
    { destruct Hr as [(c & e1 & ->) | [(c & e2 & ->) | (e2 & ->)]];
        cbn [evs]; eauto. }
    destruct Hev as (res & rest & -> & Hrest). split.
    + cbn. split; [intros _ | reflexivity].
      split; [exact HF | tauto].
    + intros len res' [Heq | Hin].
      * injection Heq as <- <-. repeat split; try lia; tauto.
      * rewrite forallb_forall in Hrest. specialize (Hrest _ Hin).
        discriminate Hrest.
  - assert (Hev : forallb (fun ev => negb (is_truncate ev)) (evs r) = true).
    { destruct Hr as [(c & e2 & ->) | (e2 & ->)]; reflexivity. }
    split.
    + split.
      * intros Hex. apply existsb_exists in Hex. destruct Hex as (ev & Hin & Ht).
        rewrite forallb_forall in Hev. specialize (Hev _ Hin).
        rewrite Ht in Hev. discriminate.
      * intros [HF Hnd]. destruct Hno as [Hle | Heq]; [lia |].
        destruct (start_len_facts b HA HF) as (_ & _ & _ & Hiff). tauto.
    + intros len res Hin. rewrite forallb_forall in Hev.
      specialize (Hev _ Hin). discriminate Hev.
Qed.

(** X2: when start fails, the error code is that of the call it made
    last, the cursor, sequence number, flags and free list are as before,
    and if it was the truncate that failed nothing else was called and the
    block is untouched. *)
Theorem salvage_start_failure (b : WT_BLOCK) (e : E) (c : Z) :
  let r := __wt_block_salvage_start b e in
  out r = Fail c ->
  slvg_off (blk r) = slvg_off b /\ lsn (blk r) = lsn b /\
  flags (blk r) = flags b /\ freelist (blk r) = freelist b /\
  (evs r = [EvTruncate (start_len b) (Err c)] /\ blk r = b \/
   last (evs r) EvDiscard = EvDescInit (Err c)).
Proof.
  intros r Hf.
  destruct (salvage_start_cases b e)
    as [(_ & _ & [(c' & e1 & Hr) | [(c' & e2 & Hr) | (e2 & Hr)]])
       | (_ & [(c' & e2 & Hr) | (e2 & Hr)])];
    fold r in Hr; rewrite Hr in *; cbn [out blk evs] in *;
    try discriminate; injection Hf as ->; cbn; splits; auto.
Qed.

(** X3: a successful start leaves a file on which a second start has
    nothing to truncate and, if it succeeds too, changes nothing in the
    block. *)
Theorem salvage_start_idempotent (b : WT_BLOCK) (e e' : E) :
  0 < allocsize b ->
  out (__wt_block_salvage_start b e) = Ret tt ->
  let b1 := blk (__wt_block_salvage_start b e) in
  let r2 := __wt_block_salvage_start b1 e' in
  existsb is_truncate (evs r2) = false /\
  (out r2 = Ret tt -> blk r2 = b1).
Proof.
  intros HA Hok b1 r2.
  assert (Hb1 : allocsize b1 = allocsize b /\
                slvg_off b1 = WT_BLOCK_DESC_SECTOR /\
                (file_size (fh b1) > WT_BLOCK_DESC_SECTOR ->
                 (allocsize b | file_size (fh b1) - WT_BLOCK_DESC_SECTOR))).
  { unfold b1.
    destruct (salvage_start_cases b e)
      as [(HF & Hne & [(c' & e1 & Hr) | [(c' & e2 & Hr) | (e2 & Hr)]])
         | (Hno & [(c' & e2 & Hr) | (e2 & Hr)])];
      rewrite Hr in *; cbn [out blk] in *; try discriminate; cbn.
    - destruct (start_len_facts b HA HF) as (_ & _ & Hdiv & _). auto.
    - splits; auto. intros HF.
      destruct (start_len_facts b HA HF) as (_ & _ & _ & Hiff).
      destruct Hno as [Hle | Heq]; [lia | tauto]. }
  destruct Hb1 as (Has & Hoff & Hdiv).
  assert (HA1 : 0 < allocsize b1) by (rewrite Has; exact HA).
  destruct (salvage_start_cases b1 e') as [(HF & Hne & _) | (_ & Hr)].
  - exfalso. apply Hne.
    destruct (start_len_facts b1 HA1 HF) as (_ & _ & _ & Hiff).
    apply Hiff. rewrite Has. auto.
  - fold r2 in Hr.
    destruct Hr as [(c' & e2 & ->) | (e2 & ->)]; cbn [out blk evs].
    + split; [reflexivity | discriminate].
    + split; [reflexivity |]. intros _.
      rewrite <- Hoff. now destruct b1.
Qed.

(** *** End *)

Lemma F_CLR_testbit (f mask n : Z) :
  0 <= n ->
  Z.testbit (F_CLR f mask) n = Z.testbit f n && negb (Z.testbit mask n).
Proof.
  intros Hn. unfold F_CLR. now rewrite Z.land_spec, Z.lnot_spec.
Qed.

Lemma F_CLR_range (f mask : Z) :
  0 <= f < 2 ^ 32 -> 0 <= F_CLR f mask < 2 ^ 32.
Proof.
  intros Hf. unfold F_CLR.
  assert (Hm : Z.land f (Z.lnot mask) =
               Z.land (Z.land f (Z.lnot mask)) (Z.ones 32)).
  { rewrite <- Z.land_assoc, (Z.land_comm (Z.lnot mask)), Z.land_assoc.
    rewrite (Z.land_ones f 32) by lia.
    rewrite Z.mod_small by exact Hf. reflexivity. }
  rewrite Hm, Z.land_ones by lia. apply Z.mod_pos_bound. lia.
Qed.

(** X4: end always returns 0; whatever [success] is it leaves the cursor,
    the sequence number, the file handle and the allocation size alone,
    keeps every flag bit that is not in [WT_BLOCK_OK], and keeps the flags
    a 32-bit value. *)
Theorem salvage_end_keeps (b : WT_BLOCK) (e : E) (success : Z) :
  let r := __wt_block_salvage_end success b e in
  out r = Ret tt /\
  slvg_off (blk r) = slvg_off b /\ lsn (blk r) = lsn b /\
  fh (blk r) = fh b /\ allocsize (blk r) = allocsize b /\
  (forall n, 0 <= n -> Z.testbit WT_BLOCK_OK n = false ->
             Z.testbit (flags (blk r)) n = Z.testbit (flags b) n) /\
  (0 <= flags b < 2 ^ 32 -> 0 <= flags (blk r) < 2 ^ 32) /\
  existsb is_io (evs r) = false.
Proof.
  unfold __wt_block_salvage_end.
  destruct (success =? 0) eqn:Hs.
  - erewrite bind_ret_run.
    2: { erewrite bind_ret_run by reflexivity. reflexivity. }
    cbn. splits; auto.
    + intros n Hn Hbit. rewrite F_CLR_testbit, Hbit by exact Hn.
      now rewrite andb_true_r.
    + apply F_CLR_range.
  - erewrite bind_ret_run by reflexivity. cbn. splits; auto.
Qed.

(** *** Next: how much it does *)

Lemma reads_app l1 l2 : reads (l1 ++ l2) = (reads l1 + reads l2)%nat.
Proof. unfold reads. now rewrite filter_app, length_app. Qed.

Lemma probe_reads max A o b e dsk b1 e1 l :
  garbage_probe max A o b e dsk b1 e1 l -> reads l = 1%nat.
Proof. inversion 1; reflexivity. Qed.

Lemma body_reads max A o b e (r : run E ctl) :
  body_spec max A o b e r ->
  (max <= o -> reads (evs r) = 0%nat) /\
  (o < max -> reads (evs r) = 1%nat).
Proof.
  inversion 1; subst; cbn [evs]; split; intros; try lia; try reflexivity;
    rewrite reads_app;
    match goal with Hp : garbage_probe _ _ _ _ _ _ _ _ _ |- _ =>
      rewrite (probe_reads Hp) end; reflexivity.
Qed.

Lemma scan_reads_bound max A o b e (r : run E ctl) :
  0 < A ->
  scan_spec max A o b e r ->
  (max <= o -> reads (evs r) = 0%nat) /\
  (o < max -> Z.of_nat (reads (evs r)) * A < max - o + A).
Proof.
  intros HA. induction 1 as [o b e r Hb Hnc | o b e r1 o' r2 Hb Hc Hs IH].
  - destruct (body_reads Hb) as [H0 H1]. split; [exact H0 |].
    intros Hlt. rewrite (H1 Hlt). lia.
  - destruct (body_continue Hb Hc) as [-> Hlt].
    destruct (body_reads Hb) as [_ H1]. specialize (H1 Hlt).
    cbn [evs]. rewrite reads_app, H1. split; [lia |]. intros _.
    destruct IH as [IH0 IH1].
    destruct (Z_lt_le_dec (o + A) max) as [Hin | Hout].
    + specialize (IH1 Hin). lia.
    + rewrite (IH0 Hout). lia.
Qed.

Lemma finish_reads (r : run E ctl) : reads (evs (finish r)) = reads (evs r).
Proof.
  unfold finish. destruct (out r) as [[o' | o' sz ck |] | c |]; try reflexivity.
  destruct (wt_block_addr_to_buffer (blk r) o' sz ck); cbn [evs];
    rewrite reads_app; cbn; lia.
Qed.

(** X5: with a positive allocation size a call of next returns (the loop
    ends, whatever the file holds and whatever the collaborators do), and
    it reads at most one header per allocation unit between the cursor and
    the end of the file: none when the cursor is at or past the end. *)
Theorem salvage_next_returns (b : WT_BLOCK) (e : E) :
  0 < allocsize b ->
  let r := __wt_block_salvage_next b e in
  out r <> OutOfFuel /\
  (file_size (fh b) <= slvg_off b -> reads (evs r) = 0%nat) /\
  (slvg_off b < file_size (fh b) ->
   Z.of_nat (reads (evs r)) * allocsize b
   < file_size (fh b) - slvg_off b + allocsize b).
Proof.
  intros HA r. split.
  - pose proof (salvage_next_cases b e HA) as Hc. fold r in Hc.
    destruct Hc; cbn [out]; discriminate.
  - pose proof (next_spec_holds b e HA) as Hn. fold r in Hn.
    destruct Hn as [c e1 Hbuf | e1 r1 Hbuf Hs].
    + cbn [evs]. split; intros; [reflexivity | cbn; lia].
    + unfold logged_after. cbn [evs].
      change (reads (EvBufInit (allocsize b) (Ok tt) :: evs (finish r1)))
        with (reads (evs (finish r1))).
      rewrite finish_reads. exact (scan_reads_bound HA Hs).
Qed.

(** X6: a call of next never lowers the cursor or the sequence number and
    never changes the file handle, the allocation size or the flags. *)
Theorem salvage_next_keeps (b : WT_BLOCK) (e : E) :
  0 < allocsize b ->
  let r := __wt_block_salvage_next b e in
  slvg_off b <= slvg_off (blk r) /\ lsn b <= lsn (blk r) /\
  fh (blk r) = fh b /\ allocsize (blk r) = allocsize b /\
  flags (blk r) = flags b.
Proof.
  intros HA r.
  destruct (salvage_next_facts b e HA) as (Hch & Hfh & Has & Hlsn & _).
  fold r in Hch, Hfh, Has, Hlsn.
  splits; auto.
  - now apply chain_le in Hch.
  - rewrite Hlsn. apply max_list_le.
  - pose proof (salvage_next_cases b e HA) as Hc. fold r in Hc.
    destruct Hc as [c' e1 Hbuf | l o1 b1 e2 Hsp Hle | l o1 b1 e2 c' Hsp Hlt
                    | l o1 b1 e1 dsk b2 e2 l2 e3 c' Hsp Hlt Hp
                    | l o1 b1 dsk e2 a Hsp Hlt Hins Ha
                    | l o1 b1 dsk e2 c' Hsp Hlt Hins Ha];
      cbn [blk]; try reflexivity;
      try (destruct (probe_facts Hp) as (_ & _ & _ & _ & _ & Hfl2 & _));
      try (destruct (bump_lsn_facts dsk b1) as (_ & _ & _ & _ & Hflb));
      destruct Hsp as [_ _ _ _ _ _ Hfl _ _ _ _]; cbn; congruence.
Qed.

(** X7: once a call has reported end-of-file, a further call, in whatever
    state the environment is by then, does no I/O, leaves the block as it
    is and reports end-of-file again (once its buffer is set up). *)
Theorem eof_is_final (b : WT_BLOCK) (e e' : E) :
  0 < allocsize b ->
  out (__wt_block_salvage_next b e) = Ret Eof ->
  let b1 := blk (__wt_block_salvage_next b e) in
  let r2 := __wt_block_salvage_next b1 e' in
  blk r2 = b1 /\ existsb is_io (evs r2) = false /\
  (fst (wt_buf_initsize (allocsize b1) e') = Ok tt -> out r2 = Ret Eof).
Proof.
  intros HA Heof b1 r2.
  destruct (salvage_next_facts b e HA) as (_ & Hfh & _ & _ & _ & _ & He).
  apply He in Heof. fold b1 in Hfh, Heof. rewrite <- Hfh in Heof.
  exact (salvage_next_at_eof b1 e' Heof).
Qed.

(** What a call that returns a page has done. *)
Lemma page_facts (b : WT_BLOCK) (e : E) (a : list Z) :
  0 < allocsize b ->
  let r := __wt_block_salvage_next b e in
  out r = Ret (Page a) ->
  exists o size ck,
    last (evs r) EvDiscard = EvAddr o size ck (Ok a) /\
    slvg_off b <= o /\ (allocsize b | o - slvg_off b) /\
    0 < size <= WT_BTREE_PAGE_SIZE_MAX /\ (allocsize b | size) /\
    o + size <= file_size (fh b) /\ slvg_off (blk r) = o + size.
Proof.
  intros HA r Hp. pose proof (salvage_next_cases b e HA) as Hc. fold r in Hc.
  assert (HA0 : allocsize b <> 0) by lia.
  destruct Hc as [c' e1 Hbuf | l o1 b1 e2 Hsp Hle | l o1 b1 e2 c' Hsp Hlt
                  | l o1 b1 e1 dsk b2 e2 l2 e3 c' Hsp Hlt Hp'
                  | l o1 b1 dsk e2 a' Hsp Hlt Hins Ha
                  | l o1 b1 dsk e2 c' Hsp Hlt Hins Ha];
    cbn [out blk evs] in *; try discriminate.
  injection Hp as ->.
  destruct (@size_sane_facts _ _ _ _ HA0 Hins) as (Hnz & Hdiv & Hmax & Hend).
  destruct (@skip_prefix_facts _ _ _ _ _ _ HA Hsp) as (_ & Hmono & _).
  destruct Hsp as [_ _ _ _ _ _ _ _ _ Hstep _].
  exists o1, (Z.of_N (Dsk.size dsk)), (Dsk.cksum dsk). splits; auto; try lia.
  change (EvBufInit (allocsize b) (Ok tt) :: l ++ ?x :: ?y :: [?z])
    with ((EvBufInit (allocsize b) (Ok tt) :: l) ++ [x; y] ++ [z]).
  rewrite app_assoc. apply last_last.
Qed.

(** X8: a page that next returns starts at or after the cursor, a whole
    number of allocation units from it, has a size that is positive, a
    multiple of the allocation size and at most the maximum page size,
    ends within the file, and the cursor is left at its end. *)
Theorem returned_page_in_bounds (b : WT_BLOCK) (e : E) (a : list Z) :
  0 < allocsize b ->
  let r := __wt_block_salvage_next b e in
  out r = Ret (Page a) ->
  exists o size ck,
    last (evs r) EvDiscard = EvAddr o size ck (Ok a) /\
    slvg_off b <= o /\ (allocsize b | o - slvg_off b) /\
    0 < size <= WT_BTREE_PAGE_SIZE_MAX /\ (allocsize b | size) /\
    o + size <= file_size (fh b) /\ slvg_off (blk r) = o + size.
Proof. exact (page_facts b e (a := a)). Qed.

(** X9: in a run of calls that all return 0, either one of them has
    reported end-of-file or each has returned a page and moved the cursor
    on by at least one allocation unit inside the file: the number of
    calls is then at most the number of allocation units that were left. *)
Theorem salvage_calls_progress (n : nat) :
  forall (b : WT_BLOCK) (e : E),
  0 < allocsize b ->
  let p := salvage_calls n b e in
  (forall x, In x (outs p) -> exists v, x = Ret v) ->
  In (Ret Eof) (outs p) \/
  Z.of_nat n * allocsize b
  <= Z.max 0 (file_size (fh b) - slvg_off b) /\
  slvg_off b + Z.of_nat n * allocsize b <= slvg_off (cblk p).
Proof.
  induction n as [| n IH]; intros b e HA; cbn [salvage_calls].
  - cbn. intros _. right. lia.
  - cbn [outs cblk]. intros Hall.
    set (r := __wt_block_salvage_next b e) in *.
    destruct (Hall (out r) (or_introl eq_refl)) as [[| a] Hr].
    + left. left. exact Hr.
    + destruct (page_facts b e HA Hr)
        as (o & size & ck & _ & Ho & _ & Hsz & Hdiv & Hend & Hcur).
      fold r in Hcur.
      destruct (salvage_next_facts b e HA) as (_ & Hfh & Has & _).
      fold r in Hfh, Has.
      assert (HA' : 0 < allocsize (blk r)) by (rewrite Has; exact HA).
      assert (Hge : allocsize b <= size).
      { destruct Hdiv as [k Hk].
        destruct (Z_lt_le_dec k 1) as [Hk0 | Hk1].
        - assert (k * allocsize b <= 0) by nia. lia.
        - assert (1 * allocsize b <= k * allocsize b) by nia. lia. }
      destruct (IH (blk r) (env r) HA') as [Hin | [Hn Hc]].
      * intros x Hx. apply Hall. now right.
      * left. now right.
      * right. rewrite Hfh, Has in *. split; nia.
Qed.

(** *** Next: where it reads and what it frees *)

Lemma call_in_file_weaken (A lo lo' hi : Z) (ev : event) :
  lo <= lo' -> call_in_file A lo' hi ev -> call_in_file A lo hi ev.
Proof. intros Hle. destruct ev; cbn; intros; try tauto; lia. Qed.

Lemma body_calls_in_file max A o b e (r : run E ctl) :
  A <> 0 ->
  body_spec max A o b e r -> Forall (call_in_file A o max) (evs r).
Proof.
  intros HA Hb. 
  assert (Hp : forall dsk b1 e1 l,
             o < max -> garbage_probe max A o b e dsk b1 e1 l ->
             Forall (call_in_file A o max) l).
  { intros dsk b1 e1 l Hlt Hg. inversion Hg; subst.
    - repeat constructor; lia.
    - match goal with H : size_insane _ _ _ _ = false |- _ =>
        destruct (@size_sane_facts _ _ _ _ HA H) as (? & _ & _ & ?) end.
      repeat constructor; lia. }
  inversion Hb; subst; cbn [evs].
  - constructor.
  - repeat constructor; lia.
  - apply Forall_app. split; [eauto |]. repeat constructor; lia.
  - apply Forall_app. split; [eauto |]. repeat constructor; lia.
  - match goal with H : size_insane _ _ _ _ = false |- _ =>
      destruct (@size_sane_facts _ _ _ _ HA H) as (? & _ & _ & ?) end.
    repeat constructor; lia.
Qed.

Lemma scan_calls_in_file max A o b e (r : run E ctl) :
  0 < A ->
  scan_spec max A o b e r ->
  Forall (call_in_file A o max) (evs r) /\
  (forall o' sz ck, out r = Ret (Break o' sz ck) ->
                    In (EvBlockRead o' sz ck (Ok tt)) (evs r)).
Proof.
  intros HA. induction 1 as [o b e r Hb Hnc | o b e r1 o' r2 Hb Hc Hs IH].
  - split; [eapply body_calls_in_file; [| exact Hb]; lia |].
    intros o' sz ck Ho. inversion Hb; subst; cbn [out evs] in *;
      try discriminate. injection Ho as <- <- <-. right. now left.
  - destruct (body_continue Hb Hc) as [-> Hlt]. destruct IH as [IH1 IH2].
    cbn [out evs]. split.
    + apply Forall_app. split.
      * eapply body_calls_in_file; [| exact Hb]; lia.
      * eapply Forall_impl; [| exact IH1].
        intros ev. apply call_in_file_weaken. lia.
    + intros o' sz ck Ho. apply in_or_app. right. now apply IH2.
Qed.

(** X10: every call that next makes stays inside the part of the file at
    and after the cursor: header reads and frees are of exactly one
    allocation unit that starts below the file size, verified reads and
    cookies are for non-empty pages that end within the file, and next
    never truncates, rewrites the description sector or discards the free
    list. *)
Theorem salvage_next_calls_in_file (b : WT_BLOCK) (e : E) :
  0 < allocsize b ->
  Forall (call_in_file (allocsize b) (slvg_off b) (file_size (fh b)))
    (evs (__wt_block_salvage_next b e)).
Proof.
  intros HA. destruct (next_spec_holds b e HA) as [c e1 Hbuf | e1 r Hbuf Hs].
  - repeat constructor.
  - destruct (scan_calls_in_file HA Hs) as [Hall Hbr].
    unfold logged_after. cbn [evs]. constructor; [reflexivity |].
    unfold finish. destruct (out r) as [[o' | o' sz ck |] | c |] eqn:Ho;
      cbn [evs]; try exact Hall.
    assert (Hin := Hbr _ _ _ eq_refl).
    pose proof Hall as Hbrd. rewrite Forall_forall in Hbrd.
    specialize (Hbrd _ Hin). cbn in Hbrd.
    destruct (wt_block_addr_to_buffer (blk r) o' sz ck); cbn [evs];
      apply Forall_app; (split; [exact Hall |]);
      repeat constructor; lia.
Qed.

(** *** Next with a zero allocation size *)

(** X11: with an allocation size of 0 the loop does not end on a unit whose
    header declares size 0: as long as the header read and the free
    succeed, no amount of fuel makes the loop return; every turn reads the
    header at the same offset again and the cursor stays on it. *)
Theorem zero_allocsize_never_returns (P : E -> Prop) (max o : Z) :
  o < max ->
  (forall e0, P e0 ->
     exists dsk e1, wt_read o 0 e0 = (Ok dsk, e1) /\
                    Dsk.size dsk = 0%N /\ P e1) ->
  (forall e0, P e0 ->
     exists e1, wt_block_free o 0 e0 = (Ok tt, e1) /\ P e1) ->
  forall (fuel : nat) (b : WT_BLOCK) (e : E),
    P e -> slvg_off b = o ->
    let r := salvage_scan fuel max 0 o b e in
    out r = OutOfFuel /\ slvg_off (blk r) = o /\
    reads (evs r) = fuel /\
    Forall (fun ev => (exists dsk, ev = EvRead o 0 (Ok dsk)) \/
                      ev = EvFree o 0 (Ok tt)) (evs r).
Proof.
  intros Hlt Hread Hfree. induction fuel as [| fuel IH]; intros b e HP Hb.
  - cbn. auto.
  - cbn [salvage_scan].
    destruct (Hread e HP) as (dsk & e1 & Hrd & Hsz & HP1).
    destruct (Hfree e1 HP1) as (e2 & Hfr & HP2).
    assert (Hbody : scan_body max 0 o b e =
                    mkRun (Ret (Continue (o + 0))) (skipped o 0 b) e2
                          [EvRead o 0 (Ok dsk); EvFree o 0 (Ok tt)]).
    { unfold scan_body.
      replace (o >=? max) with false by (symmetry; lia).
      erewrite bind_ret_run by (apply call_ok; exact Hrd).
      rewrite Hsz. cbn [Z.of_N size_insane Z.eqb orb].
      erewrite skip_ok by exact Hfr. reflexivity. }
    erewrite bind_ret_run by exact Hbody. cbn [out blk env evs].
    rewrite Z.add_0_r.
    assert (Hb' : slvg_off (skipped o 0 b) = o) by (cbn; lia).
    destruct (IH (skipped o 0 b) e2 HP2 Hb') as (Hout & Hoff & Hreads & Hall).
    splits; auto.
    + change (reads ([EvRead o 0 (Ok dsk); EvFree o 0 (Ok tt)] ++ ?l))
        with (S (reads l)). now rewrite Hreads.
    + cbn [app]. constructor; [left; eauto |].
      constructor; [right; reflexivity | exact Hall].
Qed.

(** *** Next: which failures reach the caller *)

(** X12: a non-zero return of next is the error code of the call it made
    last, a buffer set-up, header read, free or cookie encoding; and when
    none of these calls fails next returns 0, however many verified reads
    failed on the way. *)
Theorem salvage_next_errors (b : WT_BLOCK) (e : E) :
  0 < allocsize b ->
  let r := __wt_block_salvage_next b e in
  (forall c, out r = Fail c ->
     exists rest ev, evs r = rest ++ [ev] /\ propagated_error ev = Some c) /\
  ((forall ev, In ev (evs r) -> propagated_error ev = None) ->
   exists v, out r = Ret v).
Proof.
  intros HA r. pose proof (salvage_next_cases b e HA) as Hc. fold r in Hc.
  destruct Hc as [c' e1 Hbuf | l o1 b1 e2 Hsp Hle | l o1 b1 e2 c' Hsp Hlt
                  | l o1 b1 e1 dsk b2 e2 l2 e3 c' Hsp Hlt Hp
                  | l o1 b1 dsk e2 a Hsp Hlt Hins Ha
                  | l o1 b1 dsk e2 c' Hsp Hlt Hins Ha];
    cbn [out evs]; split; try (intros c Hf; try discriminate Hf);
    try (intros _; eexists; reflexivity);
    try (injection Hf as ->).
  - exists [], (EvBufInit (allocsize b) (Err c)). split; reflexivity.
  - intros Hnone. specialize (Hnone _ (or_introl eq_refl)). discriminate.
  - exists (EvBufInit (allocsize b) (Ok tt) :: l),
           (EvRead o1 (allocsize b) (Err c)). split; reflexivity.
  - intros Hnone.
    assert (Hin : In (EvRead o1 (allocsize b) (Err c'))
                    (EvBufInit (allocsize b) (Ok tt)
                       :: l ++ [EvRead o1 (allocsize b) (Err c')])).
    { right. apply in_or_app. right. now left. }
    specialize (Hnone _ Hin). discriminate.
  - exists (EvBufInit (allocsize b) (Ok tt) :: l ++ l2),
           (EvFree o1 (allocsize b) (Err c)).
    split; [cbn; now rewrite <- app_assoc | reflexivity].
  - intros Hnone.
    assert (Hin : In (EvFree o1 (allocsize b) (Err c'))
                    (EvBufInit (allocsize b) (Ok tt)
                       :: l ++ l2 ++ [EvFree o1 (allocsize b) (Err c')])).
    { right. apply in_or_app. right. apply in_or_app. right. now left. }
    specialize (Hnone _ Hin). discriminate.
  - eexists (EvBufInit (allocsize b) (Ok tt) :: l ++ [_; _]), _.
    split; [cbn; rewrite <- app_assoc; reflexivity | reflexivity].
  - intros Hnone.
    assert (Hin : In (EvAddr o1 (Z.of_N (Dsk.size dsk)) (Dsk.cksum dsk) (Err c'))
                    (EvBufInit (allocsize b) (Ok tt)
                       :: l ++ [EvRead o1 (allocsize b) (Ok dsk);
                                EvBlockRead o1 (Z.of_N (Dsk.size dsk))
                                  (Dsk.cksum dsk) (Ok tt);
                                EvAddr o1 (Z.of_N (Dsk.size dsk))
                                  (Dsk.cksum dsk) (Err c')])).
    { right. apply in_or_app. right. right. right. now left. }
    specialize (Hnone _ Hin). discriminate.
Qed.

End Properties.

(** * The code on concrete files *)

(** The example scenario: two pages are returned, the unit between them is
    freed, the third call reports end-of-file and the sequence number ends
    at 12. *)
Example scenario_trace :
  outs (Sim.pass 3 Sim.block1 Sim.file1)
    = [Ret (Page [1; 2; 101]); Ret (Page [4; 1; 103]); Ret Eof] /\
  classified (cevs (Sim.pass 3 Sim.block1 Sim.file1))
    = [Valid 512 1024; Garbage 1536 512; Valid 2048 512] /\
  lsn (cblk (Sim.pass 3 Sim.block1 Sim.file1)) = 12 /\
  slvg_off (cblk (Sim.pass 3 Sim.block1 Sim.file1)) = 2560.
Proof. vm_compute. repeat split. Qed.

Lemma salvage_regions_tile_witness :
  0 < allocsize Sim.block1 /\
  out (Sim.start Sim.block1 Sim.file1) = Ret tt /\
  ForallOrdPairs disjoint (classified (cevs (Sim.pass 3 Sim.block1 Sim.file1))) /\
  Forall (fun rg => 0 < r_len rg)
    (classified (cevs (Sim.pass 3 Sim.block1 Sim.file1))) /\
  512 <= slvg_off (cblk (Sim.pass 3 Sim.block1 Sim.file1)) /\
  tiles (classified (cevs (Sim.pass 3 Sim.block1 Sim.file1))) 512
    (slvg_off (cblk (Sim.pass 3 Sim.block1 Sim.file1))) /\
  (In (Ret Eof) (outs (Sim.pass 3 Sim.block1 Sim.file1)) ->
   tiles (classified (cevs (Sim.pass 3 Sim.block1 Sim.file1))) 512
     (file_size (fh (cblk (Sim.pass 3 Sim.block1 Sim.file1))))).
Proof.
  assert (H1 : 0 < allocsize Sim.block1) by reflexivity.
  assert (H2 : out (Sim.start Sim.block1 Sim.file1) = Ret tt)
    by (vm_compute; reflexivity).
  split; [exact H1 |]. split; [exact H2 |].
  exact (@salvage_regions_tile _ Sim.collaborators Sim.constants
           Sim.block1 Sim.file1 3 H1 H2).
Defined.

(** C2 as stated fails: on [file2] the unit at 1536 has a plausible header
    with sequence number 50 and a wrong checksum, the pass ends with 50
    while the pages returned carry 7 and 12; on [file1] opened with
    sequence number 100 the pass ends with 100. *)
Lemma watermark_counterexample :
  ~ (In (Ret Eof) (outs (Sim.pass 3 Sim.block2 Sim.file2)) ->
     lsn (cblk (Sim.pass 3 Sim.block2 Sim.file2)) =
     valid_watermark (lsn Sim.block2) (cevs (Sim.pass 3 Sim.block2 Sim.file2)))
  /\
  ~ (In (Ret Eof) (outs (Sim.pass 3 Sim.block3 Sim.file1)) ->
     lsn (cblk (Sim.pass 3 Sim.block3 Sim.file1)) =
     valid_watermark (lsn Sim.block3) (cevs (Sim.pass 3 Sim.block3 Sim.file1))).
Proof.
  split; intros H.
  - assert (Hin : In (Ret Eof) (outs (Sim.pass 3 Sim.block2 Sim.file2)))
      by (vm_compute; auto).
    specialize (H Hin). vm_compute in H. discriminate H.
  - assert (Hin : In (Ret Eof) (outs (Sim.pass 3 Sim.block3 Sim.file1)))
      by (vm_compute; auto).
    specialize (H Hin). vm_compute in H. discriminate H.
Qed.

Lemma watermark_is_max_of_plausible_witness :
  0 < allocsize Sim.block2 /\
  out (Sim.start Sim.block2 Sim.file2) = Ret tt /\
  lsn (cblk (Sim.pass 3 Sim.block2 Sim.file2)) =
  max_list (lsn Sim.block2)
    (@sane_lsns Sim.constants (allocsize Sim.block2)
       (file_size (fh (blk (Sim.start Sim.block2 Sim.file2))))
       (cevs (Sim.pass 3 Sim.block2 Sim.file2))).
Proof.
  assert (H1 : 0 < allocsize Sim.block2) by reflexivity.
  assert (H2 : out (Sim.start Sim.block2 Sim.file2) = Ret tt)
    by (vm_compute; reflexivity).
  split; [exact H1 |]. split; [exact H2 |].
  exact (@watermark_is_max_of_plausible _ Sim.collaborators Sim.constants
           Sim.block2 Sim.file2 3 H1 H2).
Defined.

Lemma salvage_start_file_size_witness :
  0 < allocsize Sim.block1 /\
  out (Sim.start Sim.block1 Sim.file1) = Ret tt /\
  (file_size (fh Sim.block1) > 512 ->
   file_size (fh (blk (Sim.start Sim.block1 Sim.file1))) =
   512 + allocsize Sim.block1
         * ((file_size (fh Sim.block1) - 512) / allocsize Sim.block1)) /\
  (file_size (fh Sim.block1) <= 512 ->
   file_size (fh (blk (Sim.start Sim.block1 Sim.file1))) =
   file_size (fh Sim.block1)).
Proof.
  assert (H1 : 0 < allocsize Sim.block1) by reflexivity.
  assert (H2 : out (Sim.start Sim.block1 Sim.file1) = Ret tt)
    by (vm_compute; reflexivity).
  split; [exact H1 |]. split; [exact H2 |].
  exact (@salvage_start_file_size _ Sim.collaborators Sim.constants
           Sim.block1 Sim.file1 H1 H2).
Defined.

Lemma failed_probe_costs_one_unit_witness :
  1536 < 2560 /\
  @garbage_probe _ Sim.collaborators Sim.constants 2560 512 1536
    Sim.block5 Sim.file1 Sim.dsk1536
    (@bump_lsn Sim.dsk1536 Sim.block5) Sim.file1
    [EvRead 1536 512 (Ok Sim.dsk1536);
     EvBlockRead 1536 512 102 (Err Sim.WT_ERROR)] /\
  @wt_block_free _ Sim.collaborators 1536 512 Sim.file1 = (Ok tt, Sim.file1) /\
  out (Sim.probe 2560 512 1536 Sim.block5 Sim.file1)
    = Ret (Continue (1536 + 512)) /\
  slvg_off (blk (Sim.probe 2560 512 1536 Sim.block5 Sim.file1)) = 1536 + 512 /\
  classified (evs (Sim.probe 2560 512 1536 Sim.block5 Sim.file1))
    = [Garbage 1536 512] /\
  freelist (blk (Sim.probe 2560 512 1536 Sim.block5 Sim.file1))
    = freelist Sim.block5 ++ [(1536, 512)].
Proof.
  assert (H1 : 1536 < 2560) by reflexivity.
  assert (H2 : @garbage_probe _ Sim.collaborators Sim.constants 2560 512 1536
                 Sim.block5 Sim.file1 Sim.dsk1536
                 (@bump_lsn Sim.dsk1536 Sim.block5) Sim.file1
                 [EvRead 1536 512 (Ok Sim.dsk1536);
                  EvBlockRead 1536 512 102 (Err Sim.WT_ERROR)]).
  { apply (@ProbeUnverified _ Sim.collaborators Sim.constants 2560 512 1536
             Sim.block5 Sim.file1 Sim.dsk1536 Sim.file1 Sim.WT_ERROR Sim.file1);
      vm_compute; reflexivity. }
  assert (H3 : @wt_block_free _ Sim.collaborators 1536 512 Sim.file1
               = (Ok tt, Sim.file1)) by (vm_compute; reflexivity).
  split; [exact H1 |]. split; [exact H2 |]. split; [exact H3 |].
  exact (@failed_probe_costs_one_unit _ Sim.collaborators Sim.constants
           2560 512 1536 Sim.block5 _ Sim.file1 _ _ Sim.dsk1536 _ H1 H2 H3).
Defined.



Lemma header_rejected_iff_witness :
  512 <> 0 /\ 512 < 1024 /\
  @wt_read _ Sim.collaborators 512 512 Sim.file4
    = (Ok (Dsk.mk 0 0 0%N), Sim.file4) /\
  ((existsb is_block_read
      (evs (Sim.probe 1024 512 512 Sim.block4 Sim.file4)) = false /\
    exists fr,
      evs (Sim.probe 1024 512 512 Sim.block4 Sim.file4)
      = [EvRead 512 512 (Ok (Dsk.mk 0 0 0%N)); EvFree 512 512 fr]) <->
   (Z.of_N (Dsk.size (Dsk.mk 0 0 0%N)) = 0 \/
    ~ (512 | Z.of_N (Dsk.size (Dsk.mk 0 0 0%N))) \/
    Z.of_N (Dsk.size (Dsk.mk 0 0 0%N)) > @WT_BTREE_PAGE_SIZE_MAX Sim.constants \/
    512 + Z.of_N (Dsk.size (Dsk.mk 0 0 0%N)) > 1024)).
Proof.
  assert (H1 : 512 <> 0) by discriminate.
  assert (H2 : 512 < 1024) by reflexivity.
  assert (H3 : @wt_read _ Sim.collaborators 512 512 Sim.file4
               = (Ok (Dsk.mk 0 0 0%N), Sim.file4)) by (vm_compute; reflexivity).
  split; [exact H1 |]. split; [exact H2 |]. split; [exact H3 |].
  exact (@header_rejected_iff _ Sim.collaborators Sim.constants
           1024 512 512 Sim.block4 Sim.file4 Sim.file4 _ H1 H2 H3).
Defined.

Lemma verified_page_returned_witness :
  0 < allocsize Sim.block5 /\
  In (EvBlockRead 2048 512 103 (Ok tt)) (evs (Sim.next Sim.block5 Sim.file1)) /\
  exists dsk ra,
    In (EvRead 2048 (allocsize Sim.block5) (Ok dsk))
       (evs (Sim.next Sim.block5 Sim.file1)) /\
    512 = Z.of_N (Dsk.size dsk) /\ 103 = Dsk.cksum dsk /\
    last (evs (Sim.next Sim.block5 Sim.file1)) EvDiscard
      = EvAddr 2048 512 103 ra /\
    @wt_block_addr_to_buffer _ Sim.collaborators
      (set_slvg_off 2048 (blk (Sim.next Sim.block5 Sim.file1))) 2048 512 103
      = ra /\
    match ra with
    | Ok addr =>
        out (Sim.next Sim.block5 Sim.file1) = Ret (Page addr) /\
        slvg_off (blk (Sim.next Sim.block5 Sim.file1)) = 2048 + 512
    | Err c =>
        out (Sim.next Sim.block5 Sim.file1) = Fail c /\
        slvg_off (blk (Sim.next Sim.block5 Sim.file1)) = 2048
    end.
Proof.
  assert (H1 : 0 < allocsize Sim.block5) by reflexivity.
  assert (H2 : In (EvBlockRead 2048 512 103 (Ok tt))
                 (evs (Sim.next Sim.block5 Sim.file1)))
    by (vm_compute; auto 10).
  split; [exact H1 |]. split; [exact H2 |].
  exact (@verified_page_returned _ Sim.collaborators Sim.constants
           Sim.block5 Sim.file1 2048 512 103 H1 H2).
Defined.

Lemma salvage_end_invalidates_witness :
  out (Sim.finish_pass 0 Sim.block1 Sim.file1) = Ret tt /\
  (0 = 0 ->
   F_ISSET (flags (blk (Sim.finish_pass 0 Sim.block1 Sim.file1)))
     (@WT_BLOCK_OK Sim.constants) = false /\
   freelist (blk (Sim.finish_pass 0 Sim.block1 Sim.file1)) = [] /\
   evs (Sim.finish_pass 0 Sim.block1 Sim.file1) = [EvDiscard]) /\
  (0 <> 0 ->
   blk (Sim.finish_pass 0 Sim.block1 Sim.file1) = Sim.block1 /\
   env (Sim.finish_pass 0 Sim.block1 Sim.file1) = Sim.file1 /\
   evs (Sim.finish_pass 0 Sim.block1 Sim.file1) = []).
Proof.
  exact (@salvage_end_invalidates _ Sim.collaborators Sim.constants
           Sim.block1 Sim.file1 0).
Defined.

Lemma io_failure_propagates_witness :
  0 < allocsize Sim.block5 /\
  In (EvRead 1536 512 (Err Sim.EIO)) (evs (Sim.next Sim.block5 Sim.file5)) /\
  io_failure (EvRead 1536 512 (Err Sim.EIO)) = Some (1536, Sim.EIO) /\
  out (Sim.next Sim.block5 Sim.file5) = Fail Sim.EIO /\
  last (evs (Sim.next Sim.block5 Sim.file5)) EvDiscard
    = EvRead 1536 512 (Err Sim.EIO) /\
  slvg_off (blk (Sim.next Sim.block5 Sim.file5)) = 1536 /\
  slvg_off Sim.block5 <= 1536.
Proof.
  assert (H1 : 0 < allocsize Sim.block5) by reflexivity.
  assert (H2 : In (EvRead 1536 512 (Err Sim.EIO))
                 (evs (Sim.next Sim.block5 Sim.file5)))
    by (vm_compute; auto 10).
  assert (H3 : io_failure (EvRead 1536 512 (Err Sim.EIO))
               = Some (1536, Sim.EIO)) by reflexivity.
  split; [exact H1 |]. split; [exact H2 |]. split; [exact H3 |].
  exact (@io_failure_propagates _ Sim.collaborators Sim.constants
           Sim.block5 Sim.file5 _ 1536 Sim.EIO H1 H2 H3).
Defined.

Lemma small_file_first_next_is_eof_witness :
  file_size (fh Sim.block6) <= 512 /\
  fst (@wt_desc_init _ Sim.collaborators Sim.file4) = Ok tt /\
  fst (@wt_buf_initsize _ Sim.collaborators
         (allocsize (blk (Sim.start Sim.block6 Sim.file4)))
         (env (Sim.start Sim.block6 Sim.file4))) = Ok tt /\
  existsb is_truncate (evs (Sim.start Sim.block6 Sim.file4)) = false /\
  out (Sim.start Sim.block6 Sim.file4) = Ret tt /\
  slvg_off (blk (Sim.start Sim.block6 Sim.file4)) = 512 /\
  file_size (fh (blk (Sim.start Sim.block6 Sim.file4)))
    = file_size (fh Sim.block6) /\
  file_size (fh (blk (Sim.start Sim.block6 Sim.file4)))
    <= slvg_off (blk (Sim.start Sim.block6 Sim.file4)) /\
  blk (Sim.next (blk (Sim.start Sim.block6 Sim.file4))
         (env (Sim.start Sim.block6 Sim.file4)))
    = blk (Sim.start Sim.block6 Sim.file4) /\
  existsb is_io
    (evs (Sim.next (blk (Sim.start Sim.block6 Sim.file4))
            (env (Sim.start Sim.block6 Sim.file4)))) = false /\
  out (Sim.next (blk (Sim.start Sim.block6 Sim.file4))
         (env (Sim.start Sim.block6 Sim.file4))) = Ret Eof.
Proof.
  assert (H1 : file_size (fh Sim.block6) <= 512)
    by (vm_compute; discriminate).
  assert (H2 : fst (@wt_desc_init _ Sim.collaborators Sim.file4) = Ok tt)
    by reflexivity.
  assert (H3 : fst (@wt_buf_initsize _ Sim.collaborators
                      (allocsize (blk (Sim.start Sim.block6 Sim.file4)))
                      (env (Sim.start Sim.block6 Sim.file4))) = Ok tt)
    by (vm_compute; reflexivity).
  destruct (@small_file_first_next_is_eof _ Sim.collaborators Sim.constants
              Sim.block6 Sim.file4 H1) as (Htr & Hok & _).
  pose proof (Hok H2) as Hx. cbv zeta in Hx.
  destruct Hx as (Hout & Hoff & Hsize & Hle & Hblk & Hio & Heof).
  exact (conj H1 (conj H2 (conj H3 (conj Htr (conj Hout (conj Hoff
          (conj Hsize (conj Hle (conj Hblk (conj Hio (Heof H3))))))))))).
Defined.

(** * The further properties on concrete files *)

Lemma salvage_start_truncates_iff_witness :
  0 < allocsize Sim.block1 /\
  (existsb is_truncate (evs (Sim.start Sim.block1 Sim.file1)) = true <->
   file_size (fh Sim.block1) > 512 /\
   ~ (allocsize Sim.block1 | file_size (fh Sim.block1) - 512)) /\
  (forall len res,
     In (EvTruncate len res) (evs (Sim.start Sim.block1 Sim.file1)) ->
     512 <= len < file_size (fh Sim.block1) /\
     file_size (fh Sim.block1) - allocsize Sim.block1 < len /\
     (allocsize Sim.block1 | len - 512)).
Proof.
  assert (H1 : 0 < allocsize Sim.block1) by reflexivity.
  split; [exact H1 |].
  exact (@salvage_start_truncates_iff _ Sim.collaborators Sim.constants
           Sim.block1 Sim.file1 H1).
Defined.

Lemma salvage_start_failure_witness :
  out (Sim.start_no_truncate Sim.block1 Sim.file1) = Fail Sim.EIO /\
  slvg_off (blk (Sim.start_no_truncate Sim.block1 Sim.file1))
    = slvg_off Sim.block1 /\
  lsn (blk (Sim.start_no_truncate Sim.block1 Sim.file1)) = lsn Sim.block1 /\
  flags (blk (Sim.start_no_truncate Sim.block1 Sim.file1))
    = flags Sim.block1 /\
  freelist (blk (Sim.start_no_truncate Sim.block1 Sim.file1))
    = freelist Sim.block1 /\
  (evs (Sim.start_no_truncate Sim.block1 Sim.file1)
     = [EvTruncate (@start_len Sim.constants Sim.block1) (Err Sim.EIO)] /\
   blk (Sim.start_no_truncate Sim.block1 Sim.file1) = Sim.block1 \/
   last (evs (Sim.start_no_truncate Sim.block1 Sim.file1)) EvDiscard
     = EvDescInit (Err Sim.EIO)).
Proof.
  assert (H1 : out (Sim.start_no_truncate Sim.block1 Sim.file1)
               = Fail Sim.EIO) by (vm_compute; reflexivity).
  split; [exact H1 |].
  exact (@salvage_start_failure _ Sim.collaborators_no_truncate Sim.constants
           Sim.block1 Sim.file1 Sim.EIO H1).
Defined.

Lemma salvage_start_idempotent_witness :
  0 < allocsize Sim.block1 /\
  out (Sim.start Sim.block1 Sim.file1) = Ret tt /\
  existsb is_truncate
    (evs (Sim.start (blk (Sim.start Sim.block1 Sim.file1)) Sim.file2)) = false /\
  (out (Sim.start (blk (Sim.start Sim.block1 Sim.file1)) Sim.file2) = Ret tt ->
   blk (Sim.start (blk (Sim.start Sim.block1 Sim.file1)) Sim.file2)
   = blk (Sim.start Sim.block1 Sim.file1)).
Proof.
  assert (H1 : 0 < allocsize Sim.block1) by reflexivity.
  assert (H2 : out (Sim.start Sim.block1 Sim.file1) = Ret tt)
    by (vm_compute; reflexivity).
  split; [exact H1 |]. split; [exact H2 |].
  exact (@salvage_start_idempotent _ Sim.collaborators Sim.constants
           Sim.block1 Sim.file1 Sim.file2 H1 H2).
Defined.

Lemma salvage_end_keeps_witness :
  0 <= flags Sim.block1 < 2 ^ 32 /\
  0 <= flags (blk (Sim.finish_pass 0 Sim.block1 Sim.file1)) < 2 ^ 32.
Proof.
  assert (H1 : 0 <= flags Sim.block1 < 2 ^ 32) by (vm_compute; split; discriminate || reflexivity).
  split; [exact H1 |].
  exact (proj1 (proj2 (proj2 (proj2 (proj2 (proj2 (proj2
           (@salvage_end_keeps _ Sim.collaborators Sim.constants
              Sim.block1 Sim.file1 0))))))) H1).
Defined.

Lemma salvage_next_returns_witness :
  0 < allocsize Sim.block5 /\
  out (Sim.next Sim.block5 Sim.file1) <> OutOfFuel /\
  (file_size (fh Sim.block5) <= slvg_off Sim.block5 ->
   reads (evs (Sim.next Sim.block5 Sim.file1)) = 0%nat) /\
  (slvg_off Sim.block5 < file_size (fh Sim.block5) ->
   Z.of_nat (reads (evs (Sim.next Sim.block5 Sim.file1))) * allocsize Sim.block5
   < file_size (fh Sim.block5) - slvg_off Sim.block5 + allocsize Sim.block5).
Proof.
  assert (H1 : 0 < allocsize Sim.block5) by reflexivity.
  split; [exact H1 |].
  exact (@salvage_next_returns _ Sim.collaborators Sim.constants
           Sim.block5 Sim.file1 H1).
Defined.

Lemma salvage_next_keeps_witness :
  0 < allocsize Sim.block5 /\
  slvg_off Sim.block5 <= slvg_off (blk (Sim.next Sim.block5 Sim.file1)) /\
  lsn Sim.block5 <= lsn (blk (Sim.next Sim.block5 Sim.file1)) /\
  fh (blk (Sim.next Sim.block5 Sim.file1)) = fh Sim.block5 /\
  allocsize (blk (Sim.next Sim.block5 Sim.file1)) = allocsize Sim.block5 /\
  flags (blk (Sim.next Sim.block5 Sim.file1)) = flags Sim.block5.
Proof.
  assert (H1 : 0 < allocsize Sim.block5) by reflexivity.
  split; [exact H1 |].
  exact (@salvage_next_keeps _ Sim.collaborators Sim.constants
           Sim.block5 Sim.file1 H1).
Defined.

Lemma eof_is_final_witness :
  0 < allocsize Sim.block4 /\
  out (Sim.next Sim.block4 Sim.file4) = Ret Eof /\
  blk (Sim.next (blk (Sim.next Sim.block4 Sim.file4)) Sim.file1)
    = blk (Sim.next Sim.block4 Sim.file4) /\
  existsb is_io
    (evs (Sim.next (blk (Sim.next Sim.block4 Sim.file4)) Sim.file1)) = false /\
  (fst (@wt_buf_initsize _ Sim.collaborators
          (allocsize (blk (Sim.next Sim.block4 Sim.file4))) Sim.file1) = Ok tt ->
   out (Sim.next (blk (Sim.next Sim.block4 Sim.file4)) Sim.file1) = Ret Eof).
Proof.
  assert (H1 : 0 < allocsize Sim.block4) by reflexivity.
  assert (H2 : out (Sim.next Sim.block4 Sim.file4) = Ret Eof)
    by (vm_compute; reflexivity).
  split; [exact H1 |]. split; [exact H2 |].
  exact (@eof_is_final _ Sim.collaborators Sim.constants
           Sim.block4 Sim.file4 Sim.file1 H1 H2).
Defined.

Lemma returned_page_in_bounds_witness :
  0 < allocsize Sim.block5 /\
  out (Sim.next Sim.block5 Sim.file1) = Ret (Page [4; 1; 103]) /\
  exists o size ck,
    last (evs (Sim.next Sim.block5 Sim.file1)) EvDiscard
      = EvAddr o size ck (Ok [4; 1; 103]) /\
    slvg_off Sim.block5 <= o /\ (allocsize Sim.block5 | o - slvg_off Sim.block5) /\
    0 < size <= @WT_BTREE_PAGE_SIZE_MAX Sim.constants /\
    (allocsize Sim.block5 | size) /\
    o + size <= file_size (fh Sim.block5) /\
    slvg_off (blk (Sim.next Sim.block5 Sim.file1)) = o + size.
Proof.
  assert (H1 : 0 < allocsize Sim.block5) by reflexivity.
  assert (H2 : out (Sim.next Sim.block5 Sim.file1) = Ret (Page [4; 1; 103]))
    by (vm_compute; reflexivity).
  split; [exact H1 |]. split; [exact H2 |].
  exact (@returned_page_in_bounds _ Sim.collaborators Sim.constants
           Sim.block5 Sim.file1 [4; 1; 103] H1 H2).
Defined.

Lemma salvage_calls_progress_witness :
  0 < allocsize Sim.block5 /\
  (forall x,
     In x (outs (@salvage_calls _ Sim.collaborators Sim.constants 1
                   Sim.block5 Sim.file1)) -> exists v, x = Ret v) /\
  (In (Ret Eof) (outs (@salvage_calls _ Sim.collaborators Sim.constants 1
                         Sim.block5 Sim.file1)) \/
   Z.of_nat 1 * allocsize Sim.block5
   <= Z.max 0 (file_size (fh Sim.block5) - slvg_off Sim.block5) /\
   slvg_off Sim.block5 + Z.of_nat 1 * allocsize Sim.block5
   <= slvg_off (cblk (@salvage_calls _ Sim.collaborators Sim.constants 1
                        Sim.block5 Sim.file1))).
Proof.
  assert (H1 : 0 < allocsize Sim.block5) by reflexivity.
  assert (H2 : forall x,
             In x (outs (@salvage_calls _ Sim.collaborators Sim.constants 1
                           Sim.block5 Sim.file1)) -> exists v, x = Ret v).
  { intros x Hx. vm_compute in Hx. destruct Hx as [<- | []].
    eexists. reflexivity. }
  split; [exact H1 |]. split; [exact H2 |].
  exact (@salvage_calls_progress _ Sim.collaborators Sim.constants 1
           Sim.block5 Sim.file1 H1 H2).
Defined.

Lemma salvage_next_calls_in_file_witness :
  0 < allocsize Sim.block5 /\
  Forall (call_in_file (allocsize Sim.block5) (slvg_off Sim.block5)
            (file_size (fh Sim.block5)))
    (evs (Sim.next Sim.block5 Sim.file1)).
Proof.
  assert (H1 : 0 < allocsize Sim.block5) by reflexivity.
  split; [exact H1 |].
  exact (@salvage_next_calls_in_file _ Sim.collaborators Sim.constants
           Sim.block5 Sim.file1 H1).
Defined.

Lemma zero_allocsize_never_returns_witness :
  512 < 1024 /\
  (forall e0, e0 = Sim.file4 ->
     exists dsk e1,
       @wt_read _ Sim.collaborators 512 0 e0 = (Ok dsk, e1) /\
       Dsk.size dsk = 0%N /\ e1 = Sim.file4) /\
  (forall e0, e0 = Sim.file4 ->
     exists e1,
       @wt_block_free _ Sim.collaborators 512 0 e0 = (Ok tt, e1) /\
       e1 = Sim.file4) /\
  slvg_off Sim.block7 = 512 /\
  out (Sim.scan 1000 1024 0 512 Sim.block7 Sim.file4) = OutOfFuel /\
  slvg_off (blk (Sim.scan 1000 1024 0 512 Sim.block7 Sim.file4)) = 512 /\
  reads (evs (Sim.scan 1000 1024 0 512 Sim.block7 Sim.file4)) = 1000%nat /\
  Forall (fun ev => (exists dsk, ev = EvRead 512 0 (Ok dsk)) \/
                    ev = EvFree 512 0 (Ok tt))
    (evs (Sim.scan 1000 1024 0 512 Sim.block7 Sim.file4)).
Proof.
  assert (H1 : 512 < 1024) by reflexivity.
  assert (H2 : forall e0, e0 = Sim.file4 ->
             exists dsk e1,
               @wt_read _ Sim.collaborators 512 0 e0 = (Ok dsk, e1) /\
               Dsk.size dsk = 0%N /\ e1 = Sim.file4).
  { intros e0 ->. exists (Dsk.mk 0 0 0%N), Sim.file4.
    vm_compute. repeat split. }
  assert (H3 : forall e0, e0 = Sim.file4 ->
             exists e1,
               @wt_block_free _ Sim.collaborators 512 0 e0 = (Ok tt, e1) /\
               e1 = Sim.file4).
  { intros e0 ->. exists Sim.file4. vm_compute. repeat split. }
  assert (H4 : slvg_off Sim.block7 = 512) by reflexivity.
  split; [exact H1 |]. split; [exact H2 |]. split; [exact H3 |].
  split; [exact H4 |].
  exact (@zero_allocsize_never_returns _ Sim.collaborators Sim.constants
           (fun d => d = Sim.file4) 1024 512 H1 H2 H3 1000%nat Sim.block7
           Sim.file4 eq_refl H4).
Defined.

Lemma salvage_next_errors_witness :
  0 < allocsize Sim.block5 /\
  (forall c, out (Sim.next Sim.block5 Sim.file5) = Fail c ->
     exists rest ev,
       evs (Sim.next Sim.block5 Sim.file5) = rest ++ [ev] /\
       propagated_error ev = Some c) /\
  ((forall ev, In ev (evs (Sim.next Sim.block5 Sim.file5)) ->
               propagated_error ev = None) ->
   exists v, out (Sim.next Sim.block5 Sim.file5) = Ret v).
Proof.
  assert (H1 : 0 < allocsize Sim.block5) by reflexivity.
  split; [exact H1 |].
  exact (@salvage_next_errors _ Sim.collaborators Sim.constants
           Sim.block5 Sim.file5 H1).
Defined.
